(** * boom: the report aggregator of [boomer/print.go]

    A shallow embedding of [boomer/print.go] (package [boomer]) and the
    properties of its report: draining the result channel, the latency
    percentiles, the latency histogram and the status-code and error
    distributions.

    Conventions of the embedding:
    - Go's [int] and [int64] are 64-bit two's-complement integers, held in
      [Z] with the wrap-around of every arithmetic operation written out
      ([GoInt.wrap]);
    - Go's [float64] is IEEE 754 binary64, held in [spec_float] with the
      operations of [SpecFloat] at precision 53 and maximal exponent 1024
      (round to nearest, ties to even; no fused multiply-add);
    - the buffered channel [results] is the list of the records queued in it,
      oldest first; the producers have stopped, so a non-blocking receive
      fails exactly when the list is empty;
    - Go's maps are [gmap]s; the order in which [range] visits a map is
      unspecified and may differ from one loop to the next, so every [range]
      loop takes the order as an argument ([range_order]);
    - a loop that Go does not bound ([printHistogram]) takes fuel and returns
      [None] when the fuel runs out. *)

From Stdlib Require Import ZArith Lia List Bool Sorted.
From Stdlib Require Import Floats.SpecFloat.
From stdpp Require Import gmap strings list.

Local Open Scope Z_scope.

(** ** Go's 64-bit integers *)

Module GoInt.

Definition min_int : Z := - 2 ^ 63.
Definition max_int : Z := 2 ^ 63 - 1.

(** Two's-complement wrap-around of an exact result into 64 bits. *)
Definition wrap (z : Z) : Z := (z + 2 ^ 63) mod 2 ^ 64 - 2 ^ 63.

Definition add (x y : Z) : Z := wrap (x + y).
Definition mul (x y : Z) : Z := wrap (x * y).
(** Go's [/] truncates toward zero. *)
Definition div (x y : Z) : Z := wrap (Z.quot x y).

Definition in_range (z : Z) : Prop := min_int <= z <= max_int.

End GoInt.

(** ** Go's float64 *)

Module F64.

Definition prec : Z := 53.
Definition emax : Z := 1024.

Definition t : Type := spec_float.

Definition zero : t := S754_zero false.
Definition nan : t := S754_nan.

(** Conversion [float64(n)] of an integer: rounded to nearest even. *)
Definition of_int (z : Z) : t := binary_normalize prec emax z 0 false.

Definition add : t -> t -> t := SFadd prec emax.
Definition sub : t -> t -> t := SFsub prec emax.
Definition mul : t -> t -> t := SFmul prec emax.
Definition div : t -> t -> t := SFdiv prec emax.

Definition ltb : t -> t -> bool := SFltb.
Definition leb : t -> t -> bool := SFleb.
Definition eqb : t -> t -> bool := SFeqb.
(** Go's [x > y]. *)
Definition gtb (x y : t) : bool :=
  match SFcompare x y with
  | Some Gt => true
  | _ => false
  end.

Definition is_nan (x : t) : bool :=
  match x with
  | S754_nan => true
  | _ => false
  end.

Definition is_zero (x : t) : bool :=
  match x with
  | S754_zero _ => true
  | _ => false
  end.

(** Zero or a finite non-zero number: neither an infinity nor a NaN. *)
Definition is_finite (x : t) : bool :=
  match x with
  | S754_zero _ | S754_finite _ _ _ => true
  | _ => false
  end.

End F64.

(** ** [time.Duration] (standard library) *)

Module GoTime.

(** [time.Second], in nanoseconds. *)
Definition Second : Z := 1000000000.

(** [func (d Duration) Seconds() float64]: the whole seconds and the
    remaining nanoseconds are converted separately and added. *)
Definition Seconds (d : Z) : F64.t :=
  let sec := Z.quot d Second in
  let nsec := Z.rem d Second in
  F64.add (F64.of_int sec) (F64.div (F64.of_int nsec) (F64.of_int 1000000000)).

End GoTime.

(** ** [sort.Float64s] (standard library) *)

Module GoSort.

(** [Float64Slice.Less]: ascending, with NaNs before every number. *)
Definition less (x y : F64.t) : bool :=
  F64.ltb x y || (F64.is_nan x && negb (F64.is_nan y)).

(** The library sorts in place with an unstable algorithm; any sort yields
    a permutation in which no element is [less] than an earlier one.  The
    embedding sorts by insertion. *)
Fixpoint place (x : F64.t) (l : list F64.t) : list F64.t :=
  match l with
  | [] => [x]
  | y :: l' => if less x y then x :: y :: l' else y :: place x l'
  end.

Fixpoint Float64s (l : list F64.t) : list F64.t :=
  match l with
  | [] => []
  | x :: l' => place x (Float64s l')
  end.

(** No element is [less] than the one before it. *)
Fixpoint sorted (l : list F64.t) : Prop :=
  match l with
  | [] => True
  | x :: l' =>
      match l' with
      | [] => True
      | y :: _ => less y x = false /\ sorted l'
      end
  end.

End GoSort.

(** ** Package [boomer]: the data model of [print.go] *)

(** The order in which one [range] loop visits the entries of a map: Go leaves
    it unspecified, so it is an input of the loop.  A [range_order] is handed
    the entries of the map and returns them in the order of the visit. *)
Definition range_order (K V : Type) : Type := list (K * V) -> list (K * V).

(** What Go guarantees of a [range] loop over a map that the loop body does
    not update: every entry is visited exactly once. *)
Definition visits_each_once {K V : Type} (o : range_order K V) : Prop :=
  forall l, o l ≡ₚ l.

(** Length of a slice, as a Go [int]. *)
Definition len {A : Type} (l : list A) : Z := Z.of_nat (length l).

(** Read of a slice at an index the code keeps in range. *)
Definition at_ {A : Type} (d : A) (l : list A) (i : Z) : A :=
  default d (l !! Z.to_nat i).

(** Modelled from the spec: the struct [result] is declared outside
    [print.go]; its fields are taken from the uses in [finalize] and from the
    spec's OutcomeRecord.  [err] is [None] for Go's [nil] error and
    [Some (err.Error())] otherwise; [duration] is a [time.Duration], a count
    of nanoseconds. *)
Record result : Type := Build_result {
  err : option string;
  statusCode : Z;
  duration : Z;
  contentLength : Z
}.

Record Percential : Type := Build_Percential {
  Percential_Percent : Z;
  Percential_Count : F64.t
}.

Record Bucket : Type := Build_Bucket {
  Bucket_Bucket : F64.t;
  Bucket_Count : Z
}.

Record StatusCode : Type := Build_StatusCode {
  StatusCode_Code : Z;
  StatusCode_Count : Z
}.

Record Error : Type := Build_Error {
  Error_Error : string;
  Error_Count : Z
}.

Record Report : Type := Build_Report {
  AvgTotal : F64.t;
  Fastest : F64.t;
  Slowest : F64.t;
  Average : F64.t;
  RPS : F64.t;
  TotalDuration : Z;
  Errors : list Error;
  StatusCodes : list StatusCode;
  Percentiales : list Percential;
  Histogram : list Bucket;
  Lats : list F64.t;
  SizeTotal : Z;
  errorDist : gmap string Z;
  statusCodeDist : gmap Z Z;
  results : list result;
  total : Z;
  output : string
}.

(** Assignments to the fields of a [*Report]. *)

Definition set_AvgTotal (v : F64.t) (r : Report) : Report :=
  Build_Report v (Fastest r) (Slowest r) (Average r) (RPS r) (TotalDuration r)
    (Errors r) (StatusCodes r) (Percentiales r) (Histogram r) (Lats r)
    (SizeTotal r) (errorDist r) (statusCodeDist r) (results r) (total r) (output r).

Definition set_Fastest (v : F64.t) (r : Report) : Report :=
  Build_Report (AvgTotal r) v (Slowest r) (Average r) (RPS r) (TotalDuration r)
    (Errors r) (StatusCodes r) (Percentiales r) (Histogram r) (Lats r)
    (SizeTotal r) (errorDist r) (statusCodeDist r) (results r) (total r) (output r).

Definition set_Slowest (v : F64.t) (r : Report) : Report :=
  Build_Report (AvgTotal r) (Fastest r) v (Average r) (RPS r) (TotalDuration r)
    (Errors r) (StatusCodes r) (Percentiales r) (Histogram r) (Lats r)
    (SizeTotal r) (errorDist r) (statusCodeDist r) (results r) (total r) (output r).

Definition set_Average (v : F64.t) (r : Report) : Report :=
  Build_Report (AvgTotal r) (Fastest r) (Slowest r) v (RPS r) (TotalDuration r)
    (Errors r) (StatusCodes r) (Percentiales r) (Histogram r) (Lats r)
    (SizeTotal r) (errorDist r) (statusCodeDist r) (results r) (total r) (output r).

Definition set_RPS (v : F64.t) (r : Report) : Report :=
  Build_Report (AvgTotal r) (Fastest r) (Slowest r) (Average r) v (TotalDuration r)
    (Errors r) (StatusCodes r) (Percentiales r) (Histogram r) (Lats r)
    (SizeTotal r) (errorDist r) (statusCodeDist r) (results r) (total r) (output r).

Definition set_Errors (v : list Error) (r : Report) : Report :=
  Build_Report (AvgTotal r) (Fastest r) (Slowest r) (Average r) (RPS r) (TotalDuration r)
    v (StatusCodes r) (Percentiales r) (Histogram r) (Lats r)
    (SizeTotal r) (errorDist r) (statusCodeDist r) (results r) (total r) (output r).

Definition set_StatusCodes (v : list StatusCode) (r : Report) : Report :=
  Build_Report (AvgTotal r) (Fastest r) (Slowest r) (Average r) (RPS r) (TotalDuration r)
    (Errors r) v (Percentiales r) (Histogram r) (Lats r)
    (SizeTotal r) (errorDist r) (statusCodeDist r) (results r) (total r) (output r).

Definition set_Percentiales (v : list Percential) (r : Report) : Report :=
  Build_Report (AvgTotal r) (Fastest r) (Slowest r) (Average r) (RPS r) (TotalDuration r)
    (Errors r) (StatusCodes r) v (Histogram r) (Lats r)
    (SizeTotal r) (errorDist r) (statusCodeDist r) (results r) (total r) (output r).

Definition set_Histogram (v : list Bucket) (r : Report) : Report :=
  Build_Report (AvgTotal r) (Fastest r) (Slowest r) (Average r) (RPS r) (TotalDuration r)
    (Errors r) (StatusCodes r) (Percentiales r) v (Lats r)
    (SizeTotal r) (errorDist r) (statusCodeDist r) (results r) (total r) (output r).

Definition set_Lats (v : list F64.t) (r : Report) : Report :=
  Build_Report (AvgTotal r) (Fastest r) (Slowest r) (Average r) (RPS r) (TotalDuration r)
    (Errors r) (StatusCodes r) (Percentiales r) (Histogram r) v
    (SizeTotal r) (errorDist r) (statusCodeDist r) (results r) (total r) (output r).

Definition set_SizeTotal (v : Z) (r : Report) : Report :=
  Build_Report (AvgTotal r) (Fastest r) (Slowest r) (Average r) (RPS r) (TotalDuration r)
    (Errors r) (StatusCodes r) (Percentiales r) (Histogram r) (Lats r)
    v (errorDist r) (statusCodeDist r) (results r) (total r) (output r).

Definition set_errorDist (v : gmap string Z) (r : Report) : Report :=
  Build_Report (AvgTotal r) (Fastest r) (Slowest r) (Average r) (RPS r) (TotalDuration r)
    (Errors r) (StatusCodes r) (Percentiales r) (Histogram r) (Lats r)
    (SizeTotal r) v (statusCodeDist r) (results r) (total r) (output r).

Definition set_statusCodeDist (v : gmap Z Z) (r : Report) : Report :=
  Build_Report (AvgTotal r) (Fastest r) (Slowest r) (Average r) (RPS r) (TotalDuration r)
    (Errors r) (StatusCodes r) (Percentiales r) (Histogram r) (Lats r)
    (SizeTotal r) (errorDist r) v (results r) (total r) (output r).

Definition set_results (v : list result) (r : Report) : Report :=
  Build_Report (AvgTotal r) (Fastest r) (Slowest r) (Average r) (RPS r) (TotalDuration r)
    (Errors r) (StatusCodes r) (Percentiales r) (Histogram r) (Lats r)
    (SizeTotal r) (errorDist r) (statusCodeDist r) v (total r) (output r).

(** [m[k]++] on a map of counters: a missing key reads as 0. *)
Definition incr `{Countable K} (k : K) (m : gmap K Z) : gmap K Z :=
  <[k := GoInt.add (default 0 (m !! k)) 1]> m.

(** [newReport]: every field not named in the composite literal is zero. *)
Definition newReport (size : Z) (results : list result) (output : string)
    (total : Z) : Report :=
  Build_Report F64.zero F64.zero F64.zero F64.zero F64.zero 0
    [] [] [] [] [] 0 ∅ ∅ results total output.

(** ** [printStatusCodes] and [printErrors] *)

(** One [StatusCode] is appended for every entry of [statusCodeDist], in the
    order [o] of this [range] loop. *)
Definition printStatusCodes (o : range_order Z Z) (r : Report) : Report :=
  fold_left
    (fun r kv => set_StatusCodes
                   (StatusCodes r ++ [Build_StatusCode (fst kv) (snd kv)]) r)
    (o (map_to_list (statusCodeDist r))) r.

Definition printErrors (o : range_order string Z) (r : Report) : Report :=
  fold_left
    (fun r kv => set_Errors (Errors r ++ [Build_Error (fst kv) (snd kv)]) r)
    (o (map_to_list (errorDist r))) r.

(** ** [printLatencies] *)

Definition pctls : list Z := [10; 25; 50; 75; 90; 95; 99].

(** The first loop, [for i := 0; i < len(r.Lats) && j < len(pctls); i++].
    [k] counts the iterations that are left before [i] reaches [len(r.Lats)]:
    the loop is entered with [k = len(r.Lats) - i]. *)
Fixpoint latencies_loop (k : nat) (lats : list F64.t) (i j : Z)
    (data : list F64.t) : list F64.t :=
  match k with
  | O => data
  | S k' =>
      if (i <? len lats) && (j <? len pctls) then
        let current := GoInt.div (GoInt.mul i 100) (len lats) in
        if current >=? at_ 0 pctls j then
          latencies_loop k' lats (GoInt.add i 1) (GoInt.add j 1)
            (<[Z.to_nat j := at_ F64.zero lats i]> data)
        else
          latencies_loop k' lats (GoInt.add i 1) j data
      else data
  end.

(** The second loop: the percentiles whose value is greater than 0. *)
Definition latencies_emit (data : list F64.t) (out : list Percential)
    : list Percential :=
  fold_left
    (fun out i =>
       if F64.gtb (at_ F64.zero data (Z.of_nat i)) F64.zero then
         out ++ [Build_Percential (at_ 0 pctls (Z.of_nat i))
                                  (at_ F64.zero data (Z.of_nat i))]
       else out)
    (seq 0 (length pctls)) out.

Definition latencies_data (lats : list F64.t) : list F64.t :=
  latencies_loop (length lats) lats 0 0 (replicate (length pctls) F64.zero).

Definition printLatencies (r : Report) : Report :=
  set_Percentiales (latencies_emit (latencies_data (Lats r)) (Percentiales r)) r.

(** ** [printHistogram] *)

Definition bc : Z := 10.

(** The boundaries: [bc] of them by the bucket size, then [Slowest]. *)
Definition histogram_buckets (r : Report) : list F64.t :=
  let buckets := replicate (Z.to_nat (bc + 1)) F64.zero in
  let bs := F64.div (F64.sub (Slowest r) (Fastest r)) (F64.of_int bc) in
  let buckets :=
    fold_left
      (fun buckets i =>
         <[i := F64.add (Fastest r) (F64.mul bs (F64.of_int (Z.of_nat i)))]> buckets)
      (seq 0 (Z.to_nat bc)) buckets in
  <[Z.to_nat bc := Slowest r]> buckets.

(** The counting loop, [for i := 0; i < len(r.Lats); { ... }].  It has no
    increment of its own: an iteration counts the latency and moves to the
    next one, or moves to the next bucket, or, at the last bucket with a
    latency that is not [<=] its boundary, changes nothing.  [None]: the fuel
    ran out. *)
Fixpoint histogram_loop (fuel : nat) (lats buckets : list F64.t)
    (i bi max : Z) (counts : list Z) : option (list Z) :=
  match fuel with
  | O => None
  | S fuel' =>
      if i <? len lats then
        if F64.leb (at_ F64.zero lats i) (at_ F64.zero buckets bi) then
          let counts' :=
            <[Z.to_nat bi := GoInt.add (at_ 0 counts bi) 1]> counts in
          let max' := if max <? at_ 0 counts' bi then at_ 0 counts' bi else max in
          histogram_loop fuel' lats buckets (GoInt.add i 1) bi max' counts'
        else if bi <? len buckets - 1 then
          histogram_loop fuel' lats buckets i (GoInt.add bi 1) max counts
        else
          histogram_loop fuel' lats buckets i bi max counts
      else Some counts
  end.

(** The last loop: one [Bucket] per boundary. *)
Definition histogram_emit (buckets : list F64.t) (counts : list Z)
    (out : list Bucket) : list Bucket :=
  fold_left
    (fun out i =>
       out ++ [Build_Bucket (at_ F64.zero buckets (Z.of_nat i))
                            (at_ 0 counts (Z.of_nat i))])
    (seq 0 (length buckets)) out.

Definition printHistogram (fuel : nat) (r : Report) : option Report :=
  let buckets := histogram_buckets r in
  let counts := replicate (Z.to_nat (bc + 1)) 0 in
  match histogram_loop fuel (Lats r) buckets 0 0 0 counts with
  | None => None
  | Some counts =>
      Some (set_Histogram (histogram_emit buckets counts (Histogram r)) r)
  end.

(** ** [finalize] *)

(** The latency of a successful request in milliseconds,
    [res.duration.Seconds()*1000]. *)
Definition latency_ms (res : result) : F64.t :=
  F64.mul (GoTime.Seconds (duration res)) (F64.of_int 1000).

(** The branch [case res := <-r.results]. *)
Definition receive (res : result) (r : Report) : Report :=
  match err res with
  | Some e => set_errorDist (incr e (errorDist r)) r
  | None =>
      let r := set_Lats (Lats r ++ [latency_ms res]) r in
      let r := set_AvgTotal (F64.add (AvgTotal r) (GoTime.Seconds (duration res))) r in
      let r := set_statusCodeDist (incr (statusCode res) (statusCodeDist r)) r in
      if contentLength res >? 0 then
        set_SizeTotal (GoInt.add (SizeTotal r) (contentLength res)) r
      else r
  end.

(** The branch [default], taken when no record is left in the channel. *)
Definition finish (fuel : nat) (o1 o2 : range_order Z Z) (r : Report)
    : option Report :=
  let r := set_RPS (F64.div (F64.of_int (len (Lats r))) (GoTime.Seconds (total r))) r in
  let r := set_Average (F64.div (AvgTotal r) (F64.of_int (len (Lats r)))) r in
  let r := set_Lats (GoSort.Float64s (Lats r)) r in
  if len (Lats r) =? 0 then Some r
  else
    let r := set_Fastest (at_ F64.zero (Lats r) 0) r in
    let r := set_Slowest (at_ F64.zero (Lats r) (len (Lats r) - 1)) r in
    let r := printStatusCodes o1 r in
    let r := printStatusCodes o2 r in
    let r := printLatencies r in
    printHistogram fuel r.

(** The loop [for { select { ... } }] over the records [q] left in the
    channel. *)
Fixpoint finalize_loop (fuel : nat) (o1 o2 : range_order Z Z)
    (q : list result) (r : Report) : option Report :=
  match q with
  | res :: q' => finalize_loop fuel o1 o2 q' (receive res (set_results q' r))
  | [] => finish fuel o1 o2 r
  end.

(** [o1] and [o2] are the orders of the two [range] loops that [finalize]
    runs over [statusCodeDist]. *)
Definition finalize (fuel : nat) (o1 o2 : range_order Z Z) (r : Report)
    : option Report :=
  finalize_loop fuel o1 o2 (results r) r.

(** ** Notions used to state the properties *)

(** A float that is not a NaN and, when it is not a zero, has sign [s]
    ([true] is negative). *)
Definition signed (s : bool) (x : F64.t) : Prop :=
  match x with
  | S754_nan => False
  | S754_infinity s' | S754_finite s' _ _ => s' = s
  | S754_zero _ => True
  end.

(** Sum of a slice of counters. *)
Definition sum_counts (l : list Z) : Z := foldr Z.add 0 l.

(** The records of a queue that carry no error, oldest first. *)
Definition succeeded (res : result) : bool :=
  match err res with
  | None => true
  | Some _ => false
  end.

Definition successes (q : list result) : list result := List.filter succeeded q.

(** The error texts of the failed records of a queue, oldest first. *)
Definition failures (q : list result) : list string := omap err q.

(** Number of occurrences of [k] in [ks]. *)
Definition occurrences `{EqDecision K} (k : K) (ks : list K) : Z :=
  len (filter (fun k' => k' = k) ks).

(** Number of successful records with status code [c]. *)
Definition code_count (c : Z) (q : list result) : Z :=
  occurrences c (map statusCode (successes q)).

(** Number of failed records with error text [e]. *)
Definition error_count (e : string) (q : list result) : Z :=
  occurrences e (failures q).

(** The state of the report when the channel has been emptied: the effect of
    the [case] branch on every record, oldest first. *)
Fixpoint drain (q : list result) (r : Report) : Report :=
  match q with
  | res :: q' => drain q' (receive res (set_results q' r))
  | [] => r
  end.

(** The latency list and the status-code counters that [finalize] leaves for
    the records [q]. *)
Definition sorted_latencies (q : list result) : list F64.t :=
  GoSort.Float64s (map latency_ms (successes q)).

Definition code_dist (q : list result) : gmap Z Z :=
  fold_left (fun m c => incr c m) (map statusCode (successes q)) ∅.

(** The entries of a map of counters as [StatusCode]s and [Error]s. *)
Definition to_StatusCode (kv : Z * Z) : StatusCode :=
  Build_StatusCode (fst kv) (snd kv).

Definition to_Error (kv : string * Z) : Error :=
  Build_Error (fst kv) (snd kv).

(** The bucket size and the boundary of bucket [i] below the last one. *)
Definition bucket_size (r : Report) : F64.t :=
  F64.div (F64.sub (Slowest r) (Fastest r)) (F64.of_int 10).

Definition bucket_bound (r : Report) (i : Z) : F64.t :=
  F64.add (Fastest r) (F64.mul (bucket_size r) (F64.of_int i)).

(** The percentile rank of index [i] in a list of [N] latencies. *)
Definition rank (N i : nat) : Z := (Z.of_nat i * 100) / Z.of_nat N.

(** [i] is the first index from [start] on whose rank is at least [p]. *)
Definition first_from (N : nat) (p : Z) (start i : nat) : Prop :=
  (start <= i < N)%nat /\ p <= rank N i /\
  forall i', (start <= i' < i)%nat -> rank N i' < p.

(** [selected N start ps is]: the indexes [is] that one walk over the
    indexes [start], [start+1], ... below [N] gives to the targets [ps], in
    order, one target per index at most; the walk stops at the first target
    that no index is left for. *)
Inductive selected (N : nat) : nat -> list Z -> list nat -> Prop :=
  | selected_done start : selected N start [] []
  | selected_stop start p ps :
      (forall i, (start <= i < N)%nat -> rank N i < p) ->
      selected N start (p :: ps) []
  | selected_next start p ps i is_ :
      first_from N p start i ->
      selected N (S i) ps is_ ->
      selected N start (p :: ps) (i :: is_).

(** The percentile entries for the targets [ps] and the indexes given to
    them: an entry for every value that is greater than 0. *)
Fixpoint percentile_entries (lats : list F64.t) (ps : list Z) (is_ : list nat)
    : list Percential :=
  match ps, is_ with
  | p :: ps', i :: is' =>
      let v := at_ F64.zero lats (Z.of_nat i) in
      if F64.gtb v F64.zero then
        Build_Percential p v :: percentile_entries lats ps' is'
      else percentile_entries lats ps' is'
  | _, _ => []
  end.

(** [fill data j vs]: the array [data] after the values [vs] have been
    stored at the positions [j], [j+1], ... *)
Fixpoint fill (data : list F64.t) (j : nat) (vs : list F64.t) : list F64.t :=
  match vs with
  | [] => data
  | v :: vs' => fill (<[j := v]> data) (S j) vs'
  end.

(** Sum of the counts of a histogram. *)
Definition histogram_total (h : list Bucket) : Z :=
  sum_counts (map Bucket_Count h).

(** Arithmetic mean of a list of floats, summed from the left. *)
Definition mean (l : list F64.t) : F64.t :=
  F64.div (fold_left F64.add l F64.zero) (F64.of_int (len l)).

(** The durations of the successful records in seconds, oldest first. *)
Definition seconds_of (q : list result) : list F64.t :=
  map (fun res => GoTime.Seconds (duration res)) (successes q).

(** Sample inputs. *)
Definition ok (code d : Z) : result := Build_result None code d 0.
Definition ko (e : string) : result := Build_result (Some e) 0 0 0.
Definition in_map_order {K V : Type} : range_order K V := fun l => l.
Definition in_reverse_order {K V : Type} : range_order K V := fun l => rev l.

(** A report that holds the sorted latencies [l] (given in whole
    milliseconds) and their extremes, as [finalize] leaves it before the
    percentiles and the histogram are computed. *)
Definition with_latencies (l : list Z) : Report :=
  let lats := map F64.of_int l in
  set_Slowest (at_ F64.zero lats (len lats - 1))
    (set_Fastest (at_ F64.zero lats 0)
       (set_Lats lats (newReport 0 [] "csv" 0))).

(** The bytes that the successful records with a positive content length
    carry, oldest first. *)
Definition counted_sizes (q : list result) : list Z :=
  List.filter (fun n => n >? 0) (map contentLength (successes q)).

(** The first bucket whose boundary a latency is at or below. *)
Fixpoint first_bucket (buckets : list F64.t) (x : F64.t) : option nat :=
  match buckets with
  | [] => None
  | b :: buckets' =>
      if F64.leb x b then Some 0%nat else S <$> first_bucket buckets' x
  end.

(** The number of latencies that have [k] as their first bucket. *)
Definition bucket_population (buckets lats : list F64.t) (k : nat) : Z :=
  len (List.filter (fun x => bool_decide (first_bucket buckets x = Some k)) lats).

(** The report without what the failed records leave in it. *)
Definition without_errors (r : Report) : Report :=
  set_errorDist ∅ (set_results [] r).

(** In percentile order: later entries have larger targets and latencies
    that are not smaller. *)
Definition percentile_before (a b : Percential) : Prop :=
  Percential_Percent a < Percential_Percent b /\
  F64.leb (Percential_Count a) (Percential_Count b) = true.

(** ** Properties *)

(** *** Integers that do not wrap *)

Module GoIntFacts.
Import GoInt.

Lemma wrap_small z : in_range z -> wrap z = z.
Proof.
  unfold in_range, min_int, max_int, wrap. intros H.
  rewrite Z.mod_small; lia.
Qed.

Lemma wrap_in_range z : in_range (wrap z).
Proof.
  unfold in_range, min_int, max_int, wrap.
  pose proof (Z.mod_pos_bound (z + 2 ^ 63) (2 ^ 64) ltac:(lia)). lia.
Qed.

Lemma add_small x y : in_range (x + y) -> add x y = x + y.
Proof. apply wrap_small. Qed.

Lemma mul_small x y : in_range (x * y) -> mul x y = x * y.
Proof. apply wrap_small. Qed.

Lemma div_nonneg x y :
  0 <= x <= max_int -> 0 < y -> div x y = x / y.
Proof.
  intros Hx Hy. unfold div.
  rewrite Z.quot_div_nonneg by lia.
  apply wrap_small. unfold in_range, min_int, max_int in *.
  pose proof (Z.div_pos x y ltac:(lia) Hy).
  assert (x / y <= x) by (apply Z.div_le_upper_bound; nia). lia.
Qed.

(** An increment that stays below [max_int] does not wrap. *)
Lemma incr_small x : 0 <= x < max_int -> add x 1 = x + 1.
Proof.
  intros H. apply add_small. unfold in_range, min_int, max_int in *. lia.
Qed.

End GoIntFacts.

(** *** The order of float64 *)

Module F64Facts.
Import F64.

Ltac cmp_cases :=
  repeat match goal with
  | H : context [Pos.compare_cont Eq ?a ?b] |- _ =>
      change (Pos.compare_cont Eq a b) with (Pos.compare a b) in H
  | |- context [Pos.compare_cont Eq ?a ?b] =>
      change (Pos.compare_cont Eq a b) with (Pos.compare a b)
  end;
  repeat match goal with
  | H : context [Z.compare ?a ?b] |- _ => destruct (Z.compare_spec a b); simpl in H
  | |- context [Z.compare ?a ?b] => destruct (Z.compare_spec a b); simpl
  | H : context [Pos.compare ?a ?b] |- _ => destruct (Pos.compare_spec a b); simpl in H
  | |- context [Pos.compare ?a ?b] => destruct (Pos.compare_spec a b); simpl
  end;
  try discriminate; try reflexivity; try lia.

Lemma compare_antisym (x y : t) :
  SFcompare y x = option_map CompOpp (SFcompare x y).
Proof.
  destruct x as [[]|[]| |[] mx ex], y as [[]|[]| |[] my ey]; simpl; try reflexivity;
    cmp_cases.
Qed.

Lemma leb_trans (x y z : t) :
  leb x y = true -> leb y z = true -> leb x z = true.
Proof.
  unfold leb, SFleb.
  destruct x as [[]|[]| |[] mx ex], y as [[]|[]| |[] my ey], z as [[]|[]| |[] mz ez];
    simpl; try discriminate; try reflexivity; intros H1 H2; cmp_cases.
Qed.

Lemma leb_total (x y : t) :
  is_nan x = false -> is_nan y = false -> ltb y x = false -> leb x y = true.
Proof.
  unfold leb, ltb, SFleb, SFltb. rewrite (compare_antisym x y).
  destruct x as [[]|[]| |[] mx ex], y as [[]|[]| |[] my ey];
    simpl; try discriminate; try reflexivity; intros _ _ H; cmp_cases.
Qed.

Lemma leb_refl (x : t) : is_nan x = false -> leb x x = true.
Proof.
  unfold leb, SFleb.
  destruct x as [[]|[]| |[] mx ex]; simpl; try discriminate; try reflexivity;
    intros _; cmp_cases.
Qed.

Lemma leb_not_nan (x y : t) : leb x y = true -> is_nan x = false /\ is_nan y = false.
Proof.
  unfold leb, SFleb. destruct x, y; simpl; try discriminate; auto.
Qed.
Lemma ltb_not_nan (x y : t) : ltb x y = true -> is_nan x = false /\ is_nan y = false.
Proof.
  unfold ltb, SFltb. destruct x, y; simpl; try discriminate; auto.
Qed.
End F64Facts.

(** *** [sort.Float64s] sorts *)

Module GoSortFacts.
Import GoSort.

Lemma place_perm x l : place x l ≡ₚ x :: l.
Proof.
  induction l as [|y l IH]; simpl; [done|].
  destruct (less x y); [done|]. rewrite IH. apply Permutation_swap.
Qed.

Lemma Float64s_perm l : Float64s l ≡ₚ l.
Proof.
  induction l as [|x l IH]; simpl; [done|].
  rewrite place_perm. by rewrite IH.
Qed.

Lemma Float64s_length l : length (Float64s l) = length l.
Proof. apply Permutation_length, Float64s_perm. Qed.

Lemma less_asym x y : less x y = true -> less y x = false.
Proof.
  unfold less, F64.ltb, SFltb. rewrite (F64Facts.compare_antisym x y).
  destruct x as [[]|[]| |[] mx ex], y as [[]|[]| |[] my ey]; simpl;
    try discriminate; try reflexivity; intros H;
    destruct (Z.compare ex ey); simpl in *; try discriminate; try reflexivity;
    destruct (Pos.compare_cont Eq mx my); simpl in *; try discriminate; reflexivity.
Qed.

Lemma sorted_tail x l : sorted (x :: l) -> sorted l.
Proof. destruct l; simpl; tauto. Qed.

Lemma place_sorted x l : sorted l -> sorted (place x l).
Proof.
  induction l as [|y l IH]; simpl; [done|].
  intros Hs. destruct (less x y) eqn:Hxy.
  - simpl. split; [by apply less_asym | exact Hs].
  - specialize (IH (sorted_tail _ _ Hs)).
    destruct l as [|z l].
    + simpl. done.
    + destruct Hs as [Hzy Hs]. simpl in IH |- *.
      destruct (less x z); simpl; auto.
Qed.

Lemma Float64s_sorted l : sorted (Float64s l).
Proof. induction l; simpl; [done | by apply place_sorted]. Qed.

End GoSortFacts.

(** *** Rounding never yields a NaN from numbers of one sign *)

Module F64Round.
Import F64.

Lemma signed_not_nan s x : signed s x -> is_nan x = false.
Proof. destruct x; simpl; tauto. Qed.

Lemma shr_1_nonneg mrs : 0 <= shr_m mrs -> 0 <= shr_m (shr_1 mrs).
Proof. destruct mrs as [[|[p|p|]|[p|p|]] r s]; simpl; lia. Qed.

Lemma iter_shr_1_nonneg p : forall mrs,
  0 <= shr_m mrs -> 0 <= shr_m (SpecFloat.iter_pos shr_1 p mrs).
Proof.
  induction p as [p IH|p IH|]; intros mrs H; simpl.
  - apply IH, IH, shr_1_nonneg, H.
  - apply IH, IH, H.
  - apply shr_1_nonneg, H.
Qed.

Lemma shr_fexp_nonneg m e l :
  0 <= m -> 0 <= shr_m (fst (shr_fexp prec emax m e l)).
Proof.
  intros Hm. unfold shr_fexp, shr.
  assert (H0 : 0 <= shr_m (shr_record_of_loc m l)) by (destruct l as [|[]]; exact Hm).
  destruct (fexp prec emax (Zdigits2 m + e) - e); simpl; auto.
  apply iter_shr_1_nonneg, H0.
Qed.

Lemma round_nearest_even_nonneg m l : 0 <= m -> 0 <= round_nearest_even m l.
Proof.
  intros Hm. destruct l as [|[]]; simpl; try lia. destruct (Z.even m); lia.
Qed.

Lemma binary_round_aux_signed s m e l :
  0 <= m -> signed s (binary_round_aux prec emax s m e l).
Proof.
  intros Hm. unfold binary_round_aux.
  pose proof (shr_fexp_nonneg m e l Hm) as H1.
  destruct (shr_fexp prec emax m e l) as [mrs' e'] eqn:E1. simpl in H1.
  pose proof (shr_fexp_nonneg
                (round_nearest_even (shr_m mrs') (loc_of_shr_record mrs')) e' loc_Exact
                (round_nearest_even_nonneg _ _ H1)) as H2.
  destruct (shr_fexp prec emax _ e' loc_Exact) as [mrs'' e''] eqn:E2. simpl in H2.
  destruct (shr_m mrs'') as [|p|p]; simpl; [done| |lia].
  destruct (e'' <=? emax - prec); simpl; done.
Qed.

Lemma binary_round_signed s m e : signed s (binary_round prec emax s m e).
Proof.
  unfold binary_round.
  destruct (shl_align m e _) as [mz ez].
  apply binary_round_aux_signed. lia.
Qed.

Lemma of_int_signed (z : Z) (s : bool) :
  (if s return Prop then z <= 0 else 0 <= z) -> signed s (of_int z).
Proof.
  unfold of_int, binary_normalize. destruct z as [|p|p]; intros H.
  - done.
  - destruct s; [lia|]. apply binary_round_signed.
  - destruct s; [|lia]. apply binary_round_signed.
Qed.

Lemma add_signed s x y : signed s x -> signed s y -> signed s (add x y).
Proof.
  unfold add. destruct x as [sx|sx| |sx mx ex], y as [sy|sy| |sy my ey];
    simpl; try tauto.
  - intros _ _. destruct sx, sy; done.
  - intros -> ->. destruct s; done.
  - intros -> ->. unfold binary_normalize.
    destruct s; simpl; apply binary_round_signed.
Qed.

Lemma div_signed s x my ey :
  signed s x -> signed s (div x (S754_finite false my ey)).
Proof.
  unfold div. destruct x as [sx|sx| |sx mx ex]; simpl; try tauto.
  - intros ->. by destruct s.
  - intros ->. unfold SFdiv_core_binary.
    destruct (Z.div_eucl _ _) as [q r] eqn:E.
    replace (xorb s false) with s by (by destruct s).
    apply binary_round_aux_signed.
    replace q with (fst (Z.div_eucl
      match ex - ey - Z.min (fexp prec emax (Zdigits2 (Z.pos mx) + ex - (Zdigits2 (Z.pos my) + ey))) (ex - ey) with
      | 0 => Z.pos mx
      | Z.pos _ => Z.shiftl (Z.pos mx) (ex - ey - Z.min (fexp prec emax (Zdigits2 (Z.pos mx) + ex - (Zdigits2 (Z.pos my) + ey))) (ex - ey))
      | Z.neg _ => 0
      end (Z.pos my))) by (by rewrite E).
    apply Z.div_pos; [|lia].
    destruct (ex - ey - _) eqn:E'; try lia.
    apply Z.shiftl_nonneg. lia.
Qed.

Lemma mul_not_nan x sy my ey :
  is_nan x = false -> is_nan (mul x (S754_finite sy my ey)) = false.
Proof.
  unfold mul. destruct x as [sx|sx| |sx mx ex]; simpl; try done.
  intros _. eapply signed_not_nan, binary_round_aux_signed. lia.
Qed.

Lemma Seconds_not_nan d : is_nan (GoTime.Seconds d) = false.
Proof.
  unfold GoTime.Seconds.
  set (s := d <? 0).
  apply (signed_not_nan s), add_signed.
  - apply of_int_signed. unfold GoTime.Second, s.
    destruct (Z.ltb_spec d 0).
    + apply Z.quot_le_upper_bound; lia.
    + apply Z.quot_pos; lia.
  - change (of_int 1000000000) with (S754_finite false 8388608000000000 (-23)).
    apply div_signed, of_int_signed. unfold GoTime.Second, s.
    destruct (Z.ltb_spec d 0).
    + apply Z.rem_nonpos; lia.
    + apply Z.rem_nonneg; lia.
Qed.
End F64Round.

(** *** Slices and the counting loop of the histogram *)

Section slices.
Context {A : Type}.
Implicit Types (l : list A) (d : A).

Lemma at_lookup d l (i : Z) x :
  l !! Z.to_nat i = Some x -> at_ d l i = x.
Proof. unfold at_. by intros ->. Qed.

Lemma at_in_range d l (i : Z) :
  0 <= i < len l -> l !! Z.to_nat i = Some (at_ d l i).
Proof.
  unfold len, at_. intros H.
  destruct (lookup_lt_is_Some_2 l (Z.to_nat i)) as [x Hx]; [lia|].
  by rewrite Hx.
Qed.

Lemma at_elem_of d l (i : Z) : 0 <= i < len l -> at_ d l i ∈ l.
Proof. intros H. eapply list_elem_of_lookup_2, at_in_range, H. Qed.

Lemma at_insert d l (i : Z) x :
  0 <= i < len l -> at_ d (<[Z.to_nat i := x]> l) i = x.
Proof.
  unfold len. intros H. apply at_lookup, list_lookup_insert_eq. lia.
Qed.
End slices.

Lemma sum_counts_insert (l : list Z) (n : nat) (x y : Z) :
  l !! n = Some y -> sum_counts (<[n := x]> l) = sum_counts l - y + x.
Proof.
  revert n. induction l as [|a l IH]; intros [|n] H; simpl in *; try done.
  - injection H as ->. lia.
  - rewrite (IH n H). lia.
Qed.

Lemma sum_counts_lookup_le (l : list Z) (n : nat) (y : Z) :
  Forall (fun c => 0 <= c) l -> l !! n = Some y -> 0 <= y <= sum_counts l.
Proof.
  intros Hl. revert n. induction Hl as [|a l Ha Hl IH]; intros [|n] H; simpl in *; try done.
  - injection H as ->.
    assert (0 <= sum_counts l) by (clear -Hl; induction Hl; simpl; [lia | unfold sum_counts in *; lia]).
    unfold sum_counts in *; lia.
  - specialize (IH n H). unfold sum_counts in *. lia.
Qed.

Lemma Forall_nonneg_insert (l : list Z) (n : nat) (x : Z) :
  Forall (fun c => 0 <= c) l -> 0 <= x -> Forall (fun c => 0 <= c) (<[n := x]> l).
Proof. intros Hl Hx. by apply Forall_insert. Qed.

Section histogram_loop.
Variables lats buckets : list F64.t.
Hypothesis buckets_length : len buckets = 11.
Hypothesis lats_int : len lats <= GoInt.max_int.

(** Every latency is at or below the last boundary: the loop counts all
    of them. *)
Lemma histogram_loop_total fuel : forall i bi max counts,
  (forall x, x ∈ lats -> F64.leb x (at_ F64.zero buckets 10) = true) ->
  len counts = 11 ->
  0 <= i <= len lats -> 0 <= bi <= 10 ->
  Forall (fun c => 0 <= c) counts -> sum_counts counts = i ->
  (len lats - i) + (10 - bi) + 1 <= Z.of_nat fuel ->
  exists counts',
    histogram_loop fuel lats buckets i bi max counts = Some counts' /\
    len counts' = 11 /\ Forall (fun c => 0 <= c) counts' /\
    sum_counts counts' = len lats.
Proof.
  induction fuel as [|fuel IH]; intros i bi max counts Hle Hc Hi Hbi Hnn Hsum Hfuel;
    [lia|].
  simpl. destruct (Z.ltb_spec i (len lats)) as [Hlt|Hge].
  - destruct (F64.leb _ _) eqn:Hcmp.
    + assert (Hlk : counts !! Z.to_nat bi = Some (at_ 0 counts bi))
        by (apply at_in_range; lia).
      pose proof (sum_counts_lookup_le _ _ _ Hnn Hlk) as Hb.
      assert (Hadd : GoInt.add (at_ 0 counts bi) 1 = at_ 0 counts bi + 1)
        by (apply GoIntFacts.incr_small; lia).
      assert (Hi1 : GoInt.add i 1 = i + 1) by (apply GoIntFacts.incr_small; lia).
      rewrite Hadd, Hi1. apply IH; try lia; auto.
      * unfold len in *. rewrite length_insert. lia.
      * apply Forall_nonneg_insert; [done | lia].
      * rewrite (sum_counts_insert _ _ _ _ Hlk). lia.
    + rewrite buckets_length. destruct (Z.ltb_spec bi (11 - 1)) as [Hb|Hb].
      * assert (Hb1 : GoInt.add bi 1 = bi + 1)
          by (apply GoIntFacts.incr_small; unfold GoInt.max_int; lia).
        rewrite Hb1. apply IH; try lia; auto.
      * assert (bi = 10) as -> by lia.
        rewrite Hle in Hcmp; [done|]. apply at_elem_of. lia.
  - exists counts. split; [done|]. repeat split; auto; lia.
Qed.

(** Every latency is at or below the boundary under the cursor: the cursor
    stays and that one counter takes them all. *)
Lemma histogram_loop_stay fuel : forall i bi max counts,
  (forall x, x ∈ lats -> F64.leb x (at_ F64.zero buckets bi) = true) ->
  0 <= i <= len lats -> 0 <= bi < len counts ->
  0 <= at_ 0 counts bi -> at_ 0 counts bi + (len lats - i) <= GoInt.max_int ->
  (len lats - i) + 1 <= Z.of_nat fuel ->
  histogram_loop fuel lats buckets i bi max counts =
    Some (<[Z.to_nat bi := at_ 0 counts bi + (len lats - i)]> counts).
Proof.
  induction fuel as [|fuel IH]; intros i bi max counts Hle Hi Hbi Hc Hmax Hfuel; [lia|].
  simpl. destruct (Z.ltb_spec i (len lats)) as [Hlt|Hge].
  - rewrite Hle by (apply at_elem_of; lia).
    assert (Hadd : GoInt.add (at_ 0 counts bi) 1 = at_ 0 counts bi + 1)
      by (apply GoIntFacts.incr_small; lia).
    assert (Hi1 : GoInt.add i 1 = i + 1) by (apply GoIntFacts.incr_small; lia).
    rewrite Hadd, Hi1, IH.
    + rewrite at_insert by lia. rewrite list_insert_insert_eq. f_equal. f_equal. lia.
    + exact Hle.
    + lia.
    + unfold len in *. rewrite length_insert. lia.
    + rewrite at_insert by lia. lia.
    + rewrite at_insert by lia. lia.
    + lia.
  - f_equal. replace (len lats - i) with 0 by lia. rewrite Z.add_0_r.
    symmetry. apply list_insert_id, at_in_range. lia.
Qed.
End histogram_loop.

(** *** Draining the channel *)

Section drain.

Lemma finalize_loop_drain fuel o1 o2 q r :
  finalize_loop fuel o1 o2 q r = finish fuel o1 o2 (drain q r).
Proof. revert r. induction q as [|res q IH]; intros r; simpl; [done | apply IH]. Qed.

Lemma successes_cons res q :
  successes (res :: q) = if succeeded res then res :: successes q else successes q.
Proof. reflexivity. Qed.

Lemma failures_cons res q :
  failures (res :: q) =
    match err res with Some e => e :: failures q | None => failures q end.
Proof. reflexivity. Qed.

Lemma drain_Lats q : forall r,
  Lats (drain q r) = Lats r ++ map latency_ms (successes q).
Proof.
  induction q as [|res q IH]; intros r; cbn [drain].
  - simpl. by rewrite app_nil_r.
  - rewrite IH, successes_cons. unfold receive, succeeded.
    destruct (err res); simpl; [done|].
    destruct (contentLength res >? 0); simpl; by rewrite <- app_assoc.
Qed.

Lemma drain_AvgTotal q : forall r,
  AvgTotal (drain q r) =
    fold_left F64.add (map (fun res => GoTime.Seconds (duration res)) (successes q))
      (AvgTotal r).
Proof.
  induction q as [|res q IH]; intros r; cbn [drain]; [done|].
  rewrite IH, successes_cons. unfold receive, succeeded.
  destruct (err res); simpl; [done|].
  destruct (contentLength res >? 0); simpl; done.
Qed.

Lemma drain_statusCodeDist q : forall r,
  statusCodeDist (drain q r) =
    fold_left (fun m c => incr c m) (map statusCode (successes q)) (statusCodeDist r).
Proof.
  induction q as [|res q IH]; intros r; cbn [drain]; [done|].
  rewrite IH, successes_cons. unfold receive, succeeded.
  destruct (err res); simpl; [done|].
  destruct (contentLength res >? 0); simpl; done.
Qed.

Lemma drain_errorDist q : forall r,
  errorDist (drain q r) =
    fold_left (fun m e => incr e m) (failures q) (errorDist r).
Proof.
  induction q as [|res q IH]; intros r; cbn [drain]; [done|].
  rewrite IH, failures_cons. unfold receive.
  destruct (err res); simpl; [done|].
  destruct (contentLength res >? 0); simpl; done.
Qed.

(** Draining leaves the output lists and the extreme latencies alone. *)
Lemma drain_untouched q : forall r,
  Errors (drain q r) = Errors r /\ StatusCodes (drain q r) = StatusCodes r /\
  Percentiales (drain q r) = Percentiales r /\ Histogram (drain q r) = Histogram r /\
  Fastest (drain q r) = Fastest r /\ Slowest (drain q r) = Slowest r /\
  total (drain q r) = total r.
Proof.
  induction q as [|res q IH]; intros r; cbn [drain]; [done|].
  destruct (IH (receive res (set_results q r))) as (-> & -> & -> & -> & -> & -> & ->).
  unfold receive. destruct (err res); simpl; [done|].
  destruct (contentLength res >? 0); simpl; done.
Qed.

Lemma successes_length q : (length (successes q) <= length q)%nat.
Proof. apply List.filter_length_le. Qed.

Lemma latency_ms_not_nan res : F64.is_nan (latency_ms res) = false.
Proof.
  unfold latency_ms.
  change (F64.of_int 1000) with (S754_finite false 8796093022208000 (-43)).
  apply F64Round.mul_not_nan, F64Round.Seconds_not_nan.
Qed.

End drain.

(** *** The appending loops; sorted latencies *)

Section emit.

Lemma set_StatusCodes_id r : set_StatusCodes (StatusCodes r) r = r.
Proof. by destruct r. Qed.

Lemma set_Errors_id r : set_Errors (Errors r) r = r.
Proof. by destruct r. Qed.

Lemma printStatusCodes_eq o r :
  printStatusCodes o r =
    set_StatusCodes
      (StatusCodes r ++ map to_StatusCode (o (map_to_list (statusCodeDist r)))) r.
Proof.
  unfold printStatusCodes. generalize (o (map_to_list (statusCodeDist r))) as l.
  intros l. revert r. induction l as [|kv l IH]; intros r; simpl.
  - by rewrite app_nil_r, set_StatusCodes_id.
  - rewrite IH. simpl. by rewrite <- app_assoc.
Qed.

Lemma printErrors_eq o r :
  printErrors o r =
    set_Errors (Errors r ++ map to_Error (o (map_to_list (errorDist r)))) r.
Proof.
  unfold printErrors. generalize (o (map_to_list (errorDist r))) as l.
  intros l. revert r. induction l as [|kv l IH]; intros r; simpl.
  - by rewrite app_nil_r, set_Errors_id.
  - rewrite IH. simpl. by rewrite <- app_assoc.
Qed.

Lemma fold_left_append {A B : Type} (f : B -> A) (l : list B) : forall out,
  fold_left (fun out i => out ++ [f i]) l out = out ++ map f l.
Proof.
  induction l as [|i l IH]; intros out; simpl.
  - by rewrite app_nil_r.
  - by rewrite IH, <- app_assoc.
Qed.

Lemma fold_left_append_if {A B : Type} (c : B -> bool) (f : B -> A) (l : list B) :
  forall out,
  fold_left (fun out i => if c i then out ++ [f i] else out) l out =
    out ++ map f (List.filter c l).
Proof.
  induction l as [|i l IH]; intros out; simpl.
  - by rewrite app_nil_r.
  - rewrite IH. destruct (c i); simpl; [by rewrite <- app_assoc | done].
Qed.

Lemma histogram_emit_eq buckets counts out :
  histogram_emit buckets counts out =
    out ++ map (fun i => Build_Bucket (at_ F64.zero buckets (Z.of_nat i))
                                      (at_ 0 counts (Z.of_nat i)))
               (seq 0 (length buckets)).
Proof. apply fold_left_append. Qed.

Lemma histogram_buckets_eq r :
  histogram_buckets r =
    map (bucket_bound r) [0; 1; 2; 3; 4; 5; 6; 7; 8; 9] ++ [Slowest r].
Proof. reflexivity. Qed.

End emit.

Section sorted.
Import GoSort.

Lemma sorted_not_nan l : forall x0,
  sorted (x0 :: l) -> F64.is_nan x0 = false ->
  forall x, x ∈ x0 :: l -> F64.is_nan x = false.
Proof.
  induction l as [|y l IH]; intros x0 Hs H0 x Hx.
  - apply list_elem_of_singleton in Hx. by subst.
  - apply elem_of_cons in Hx as [->|Hx]; [done|].
    destruct Hs as [Hless Hs]. apply (IH y); auto.
    unfold less in Hless. apply orb_false_iff in Hless as [_ Hn].
    rewrite H0 in Hn. simpl in Hn. by destruct (F64.is_nan y).
Qed.

Lemma sorted_le_last l : forall x0 y,
  sorted (x0 :: l) -> F64.is_nan x0 = false -> last (x0 :: l) = Some y ->
  forall x, x ∈ x0 :: l -> F64.leb x y = true.
Proof.
  induction l as [|x1 l IH]; intros x0 y Hs H0 Hy x Hx.
  - simpl in Hy. injection Hy as <-. apply list_elem_of_singleton in Hx. subst.
    by apply F64Facts.leb_refl.
  - assert (H1 : F64.is_nan x1 = false).
    { apply (sorted_not_nan _ _ Hs H0), elem_of_cons. right. apply elem_of_cons. by left. }
    destruct Hs as [Hless Hs].
    assert (Hy' : last (x1 :: l) = Some y) by exact Hy.
    specialize (IH x1 y Hs H1 Hy').
    apply elem_of_cons in Hx as [->|Hx]; [|by apply IH].
    apply (F64Facts.leb_trans _ x1).
    + apply F64Facts.leb_total; auto.
      unfold less in Hless. by apply orb_false_iff in Hless as [? _].
    + apply IH, elem_of_cons. by left.
Qed.

Lemma at_last {A} (d : A) (l : list A) :
  at_ d l (len l - 1) = default d (last l).
Proof.
  unfold at_, len. rewrite last_lookup. f_equal. f_equal. lia.
Qed.

Lemma at_head {A} (d : A) (l : list A) : at_ d l 0 = default d (head l).
Proof. by destruct l. Qed.

End sorted.

Section printHistogram.

Lemma printHistogram_total fuel r :
  GoSort.sorted (Lats r) -> Lats r <> [] ->
  F64.is_nan (at_ F64.zero (Lats r) 0) = false ->
  Slowest r = at_ F64.zero (Lats r) (len (Lats r) - 1) ->
  len (Lats r) <= GoInt.max_int ->
  (length (Lats r) + 11 <= fuel)%nat ->
  exists counts,
    printHistogram fuel r =
      Some (set_Histogram
              (Histogram r ++
               map (fun i => Build_Bucket
                               (at_ F64.zero (histogram_buckets r) (Z.of_nat i))
                               (at_ 0 counts (Z.of_nat i)))
                   (seq 0 11)) r) /\
    len counts = 11 /\ Forall (fun c => 0 <= c) counts /\
    sum_counts counts = len (Lats r).
Proof.
  intros Hs Hne Hnan Hslow Hint Hfuel.
  unfold printHistogram.
  destruct (histogram_loop_total (Lats r) (histogram_buckets r) eq_refl Hint
              fuel 0 0 0 (replicate (Z.to_nat (bc + 1)) 0))
    as (counts & Hloop & Hlen & Hnn & Hsum).
  - intros x Hx. rewrite histogram_buckets_eq.
    change (at_ F64.zero _ 10) with (Slowest r). rewrite Hslow, at_last.
    destruct (Lats r) as [|x0 l] eqn:El; [done|].
    destruct (last (x0 :: l)) as [y|] eqn:Ey; [|by apply last_None in Ey].
    simpl. eapply sorted_le_last; eauto.
  - reflexivity.
  - unfold len. lia.
  - lia.
  - repeat constructor; lia.
  - reflexivity.
  - unfold len. lia.
  - exists counts. rewrite Hloop, histogram_emit_eq. auto.
Qed.

End printHistogram.

(** *** What [finalize] returns *)

(** Reading a field of a report through assignments to fields. *)
Ltac fields :=
  cbn [AvgTotal Fastest Slowest Average RPS TotalDuration Errors StatusCodes
       Percentiales Histogram Lats SizeTotal errorDist statusCodeDist results
       total output
       set_AvgTotal set_Fastest set_Slowest set_Average set_RPS set_Errors
       set_StatusCodes set_Percentiales set_Histogram set_Lats set_SizeTotal
       set_errorDist set_statusCodeDist set_results newReport].

Ltac fields_in H :=
  cbn [AvgTotal Fastest Slowest Average RPS TotalDuration Errors StatusCodes
       Percentiales Histogram Lats SizeTotal errorDist statusCodeDist results
       total output
       set_AvgTotal set_Fastest set_Slowest set_Average set_RPS set_Errors
       set_StatusCodes set_Percentiales set_Histogram set_Lats set_SizeTotal
       set_errorDist set_statusCodeDist set_results newReport] in H.

Section finalize.
Variables (size : Z) (q : list result) (out : string) (total_ : Z).
Variables (o1 o2 : range_order Z Z) (fuel : nat).
Hypothesis q_int : len q <= GoInt.max_int.
Hypothesis enough : (length q + 11 <= fuel)%nat.


Lemma finalize_result :
  exists r',
    finalize fuel o1 o2 (newReport size q out total_) = Some r' /\
    RPS r' = F64.div (F64.of_int (len (successes q))) (GoTime.Seconds total_) /\
    AvgTotal r' =
      fold_left F64.add
        (map (fun res => GoTime.Seconds (duration res)) (successes q)) F64.zero /\
    Average r' = F64.div (AvgTotal r') (F64.of_int (len (successes q))) /\
    Lats r' = (sorted_latencies q) /\
    statusCodeDist r' = (code_dist q) /\
    errorDist r' = fold_left (fun m e => incr e m) (failures q) ∅ /\
    Errors r' = [] /\
    (successes q = [] ->
       Fastest r' = F64.zero /\ Slowest r' = F64.zero /\
       StatusCodes r' = [] /\ Percentiales r' = [] /\ Histogram r' = []) /\
    (successes q <> [] ->
       Fastest r' = at_ F64.zero (sorted_latencies q) 0 /\
       Slowest r' = at_ F64.zero (sorted_latencies q) (len (sorted_latencies q) - 1) /\
       StatusCodes r' =
         map to_StatusCode (o1 (map_to_list (code_dist q))) ++
         map to_StatusCode (o2 (map_to_list (code_dist q))) /\
       Percentiales r' = latencies_emit (latencies_data (sorted_latencies q)) [] /\
       exists counts,
         Histogram r' =
           map (fun i => Build_Bucket
                           (at_ F64.zero (histogram_buckets r') (Z.of_nat i))
                           (at_ 0 counts (Z.of_nat i)))
               (seq 0 11) /\
         len counts = 11 /\ Forall (fun c => 0 <= c) counts /\
         sum_counts counts = len (sorted_latencies q)).
Proof.
  unfold finalize. cbn [results newReport]. rewrite finalize_loop_drain.
  set (r0 := newReport size q out total_).
  pose proof (drain_Lats q r0) as HL. cbn [Lats r0 newReport app] in HL.
  pose proof (drain_AvgTotal q r0) as HA. cbn [AvgTotal r0 newReport] in HA.
  pose proof (drain_statusCodeDist q r0) as HS. cbn [statusCodeDist r0 newReport] in HS.
  pose proof (drain_errorDist q r0) as HE. cbn [errorDist r0 newReport] in HE.
  destruct (drain_untouched q r0) as (HEr & HSc & HPc & HHi & HFa & HSl & HTo).
  cbn [Errors StatusCodes Percentiales Histogram Fastest Slowest total r0 newReport]
    in HEr, HSc, HPc, HHi, HFa, HSl, HTo.
  set (rd := drain q r0) in *.
  unfold finish.
  cbn [Lats set_Lats set_Average set_RPS AvgTotal total].
  rewrite HL, HA, HTo.
  fold (sorted_latencies q).
  assert (Hlen : len (sorted_latencies q) = len (successes q)).
  { unfold sorted_latencies, len. by rewrite GoSortFacts.Float64s_length, length_map. }
  assert (Hlm : len (map latency_ms (successes q)) = len (successes q))
    by (unfold len; by rewrite length_map).
  rewrite !Hlm.
  destruct (Z.eqb_spec (len (sorted_latencies q)) 0) as [Hz|Hnz].
  - eexists. split; [reflexivity|].
    assert (Hnil : successes q = []).
    { apply length_zero_iff_nil. unfold len in *. lia. }
    fields. rewrite HE, HS, HEr, HSc, HPc, HHi, HFa, HSl, ?HA.
    split_and!; try done.
  - set (r1 := set_Lats (sorted_latencies q) _).
    set (r2 := set_Slowest _ (set_Fastest _ r1)).
    set (r5 := printLatencies (printStatusCodes o2 (printStatusCodes o1 r2))).
    assert (HL5 : Lats r5 = (sorted_latencies q)).
    { unfold r5. rewrite !printStatusCodes_eq. reflexivity. }
    assert (Hsl5 : Slowest r5 = at_ F64.zero (sorted_latencies q) (len (sorted_latencies q) - 1)).
    { unfold r5. rewrite !printStatusCodes_eq. reflexivity. }
    assert (Hne : (sorted_latencies q) <> []).
    { intros E. rewrite E in Hnz. done. }
    destruct (printHistogram_total fuel r5) as (counts & Hp & Hc1 & Hc2 & Hc3).
    + rewrite HL5. apply GoSortFacts.Float64s_sorted.
    + by rewrite HL5.
    + rewrite HL5.
      destruct (sorted_latencies q) as [|x0 l] eqn:El; [done|].
      assert (Hin : x0 ∈ map latency_ms (successes q)).
      { rewrite <- (GoSortFacts.Float64s_perm (map latency_ms (successes q))).
        fold (sorted_latencies q). rewrite El. apply elem_of_cons. by left. }
      apply list_elem_of_fmap in Hin as (res & -> & _).
      apply latency_ms_not_nan.
    + by rewrite HL5, Hsl5.
    + rewrite HL5, Hlen. pose proof (successes_length q). unfold len in *. lia.
    + rewrite HL5. pose proof (successes_length q).
      unfold len in Hlen. lia.
    + rewrite Hp. eexists. split; [reflexivity|].
      unfold r5, r2, r1, printLatencies. rewrite !printStatusCodes_eq. fields.
      rewrite HE, HS, HEr, HSc, HPc, HHi, ?HA.
      split_and!; try done.
      * intros Hnil. rewrite Hnil in Hlen. done.
      * intros _. split_and!; try done.
        exists counts. rewrite HL5 in Hc3. by split_and!.
Qed.

End finalize.

(** *** Maps of counters and their [range] loops *)

Section counters.
Context `{Countable K}.
Implicit Types (m : gmap K Z) (ks : list K).

Lemma occurrences_nil (k : K) : occurrences k [] = 0.
Proof. reflexivity. Qed.

Lemma occurrences_cons (k a : K) ks :
  occurrences k (a :: ks) =
    (if decide (a = k) then 1 else 0) + occurrences k ks.
Proof.
  unfold occurrences, len. rewrite filter_cons.
  destruct (decide (a = k)); simpl; lia.
Qed.

Lemma occurrences_nonneg (k : K) ks : 0 <= occurrences k ks.
Proof. unfold occurrences, len. lia. Qed.

Lemma occurrences_le (k : K) ks : occurrences k ks <= len ks.
Proof. unfold occurrences, len. pose proof (length_filter (fun k' => k' = k) ks). lia. Qed.

Lemma occurrences_pos (k : K) ks : 0 < occurrences k ks <-> k ∈ ks.
Proof.
  induction ks as [|a ks IH].
  - rewrite occurrences_nil. split; [lia|]. by intros ?%not_elem_of_nil.
  - rewrite occurrences_cons, elem_of_cons. pose proof (occurrences_nonneg k ks).
    destruct (decide (a = k)) as [->|Hne]; [split; [auto|lia]|].
    rewrite Z.add_0_l, IH. split; [auto|]. intros [?|?]; [congruence|done].
Qed.

(** The counters after one [m[k]++] per element of [ks]. *)
Lemma incr_fold_lookup ks : forall m (B : Z),
  (forall k v, m !! k = Some v -> 0 < v <= B) ->
  0 <= B -> B + len ks <= GoInt.max_int ->
  forall k,
    fold_left (fun m k => incr k m) ks m !! k =
      match m !! k with
      | Some v => Some (v + occurrences k ks)
      | None => if occurrences k ks =? 0 then None else Some (occurrences k ks)
      end.
Proof.
  induction ks as [|a ks IH]; intros m B Hm HB Hlen k.
  - simpl. rewrite occurrences_nil. destruct (m !! k); [f_equal; lia | done].
  - cbn [fold_left]. unfold len in Hlen. cbn [length] in Hlen.
    assert (Ha : GoInt.add (default 0 (m !! a)) 1 = default 0 (m !! a) + 1).
    { apply GoIntFacts.incr_small. destruct (m !! a) as [v|] eqn:E; simpl.
      - specialize (Hm a v E). lia.
      - unfold GoInt.max_int. lia. }
    rewrite (IH (incr a m) (B + 1)); [| |lia|unfold len; lia].
    + rewrite occurrences_cons. unfold incr. rewrite Ha.
      pose proof (occurrences_nonneg k ks) as Hk.
      destruct (decide (a = k)) as [->|Hne].
      * rewrite lookup_insert_eq. destruct (m !! k) as [v|] eqn:E; simpl.
        -- f_equal. lia.
        -- destruct (Z.eqb_spec (1 + occurrences k ks) 0); [lia|]. f_equal; lia.
      * rewrite lookup_insert_ne by done. by rewrite Z.add_0_l.
    + intros k' v'. unfold incr. rewrite Ha.
      destruct (decide (a = k')) as [->|Hne].
      * rewrite lookup_insert_eq. intros [= <-].
        destruct (m !! k') as [v|] eqn:E; simpl; [specialize (Hm k' v E)|]; lia.
      * rewrite lookup_insert_ne by done. intros E. specialize (Hm k' v' E). lia.
Qed.

Lemma incr_fold_empty ks (k : K) :
  len ks <= GoInt.max_int ->
  fold_left (fun m k => incr k m) ks (∅ : gmap K Z) !! k =
    if occurrences k ks =? 0 then None else Some (occurrences k ks).
Proof.
  intros Hlen. rewrite (incr_fold_lookup ks ∅ 0); [by rewrite lookup_empty| |lia|lia].
  intros k' v. by rewrite lookup_empty.
Qed.

(** The entries that a [range] loop visits for the key [k]: the single
    entry of [k], or none. *)
Lemma range_filter_key (o : range_order K Z) m (k : K) :
  visits_each_once o ->
  filter (fun kv => kv.1 = k) (o (map_to_list m)) =
    match m !! k with
    | Some v => [(k, v)]
    | None => []
    end.
Proof.
  intros Ho.
  assert (Hl : filter (fun kv : K * Z => kv.1 = k) (map_to_list m) =
               match m !! k with Some v => [(k, v)] | None => [] end).
  { pose proof (NoDup_fst_map_to_list m) as Hnd.
    assert (Hin : forall v, (k, v) ∈ map_to_list m <-> m !! k = Some v)
      by (intros v; apply elem_of_map_to_list).
    revert Hnd Hin. generalize (map_to_list m) as l. intros l.
    generalize (m !! k) as ov. intros ov.
    induction l as [|[k' v'] l IH] in ov |- *; intros Hnd Hin.
    - destruct ov as [v|]; [|done].
      destruct (Hin v) as [_ Hv]. by apply not_elem_of_nil in Hv.
    - rewrite fmap_cons in Hnd. apply NoDup_cons in Hnd as [Hk' Hnd].
      rewrite filter_cons. cbn [fst]. destruct (decide (k' = k)) as [->|Hne].
      + assert (ov = Some v') as ->.
        { destruct (Hin v') as [Hv _]. rewrite Hv; [done|]. apply elem_of_cons. by left. }
        rewrite (IH None); [done|done|].
        intros v. split; [|done]. intros Hv. exfalso. apply Hk'.
        apply list_elem_of_fmap. by exists (k, v).
      + apply IH; [done|]. intros v. rewrite <- Hin, elem_of_cons.
        split; [auto|]. intros [[= ? ?]|?]; [congruence|done]. }
  destruct (m !! k) as [v|].
  - apply Permutation_singleton_r. rewrite <- Hl. by rewrite (Ho (map_to_list m)).
  - apply Permutation_nil_r. rewrite <- Hl. by rewrite (Ho (map_to_list m)).
Qed.

End counters.

Lemma filter_to_StatusCode (c : Z) (l : list (Z * Z)) :
  filter (fun sc => StatusCode_Code sc = c) (map to_StatusCode l) =
    map to_StatusCode (filter (fun kv => kv.1 = c) l).
Proof.
  induction l as [|kv l IH]; [done|].
  cbn [map]. rewrite !filter_cons. cbn [to_StatusCode StatusCode_Code].
  destruct (decide (kv.1 = c)); cbn [map]; by rewrite IH.
Qed.

Lemma filter_to_Error (e : string) (l : list (string * Z)) :
  filter (fun x => Error_Error x = e) (map to_Error l) =
    map to_Error (filter (fun kv => kv.1 = e) l).
Proof.
  induction l as [|kv l IH]; [done|].
  cbn [map]. rewrite !filter_cons. cbn [to_Error Error_Error].
  destruct (decide (kv.1 = e)); cbn [map]; by rewrite IH.
Qed.

(** *** The walk of the percentile loop *)

Section selected.
Variable N : nat.

Lemma selected_skip start p ps is_ :
  rank N start < p ->
  selected N (S start) (p :: ps) is_ -> selected N start (p :: ps) is_.
Proof.
  intros Hr Hs. inversion Hs as [|s p' ps' Hall|s p' ps' i is' Hf Hrest]; subst.
  - apply selected_stop. intros i Hi.
    destruct (decide (i = start)) as [->|Hne]; [done|]. apply Hall. lia.
  - apply selected_next; [|done].
    destruct Hf as (Hi & Hp & Hmin). split; [lia|split; [done|]].
    intros i' Hi'. destruct (decide (i' = start)) as [->|Hne]; [done|].
    apply Hmin. lia.
Qed.

Lemma selected_length start ps is_ :
  selected N start ps is_ -> (length is_ <= length ps)%nat.
Proof. induction 1; simpl; lia. Qed.

Lemma first_from_unique p start i1 i2 :
  first_from N p start i1 -> first_from N p start i2 -> i1 = i2.
Proof.
  intros (H1 & Hp1 & Hm1) (H2 & Hp2 & Hm2).
  destruct (Nat.lt_trichotomy i1 i2) as [Hlt|[->|Hlt]]; [|done|].
  - specialize (Hm2 i1 ltac:(lia)). lia.
  - specialize (Hm1 i2 ltac:(lia)). lia.
Qed.

(** The walk is a function of the length and the targets. *)
Lemma selected_unique start ps is1 :
  selected N start ps is1 -> forall is2, selected N start ps is2 -> is1 = is2.
Proof.
  induction 1 as [s|s p ps Hall|s p ps i is_ Hf Hrest IH]; intros is2 H2;
    inversion H2 as [|s' p' ps' Hall'|s' p' ps' i' is' Hf' Hrest']; subst; try done.
  - destruct Hf' as (Hi & Hp & _). specialize (Hall i' Hi). lia.
  - destruct Hf as (Hi & Hp & _). specialize (Hall' i Hi). lia.
  - pose proof (first_from_unique _ _ _ _ Hf Hf') as <-. f_equal. by apply IH.
Qed.

End selected.

Section latencies_loop.
Variable lats : list F64.t.
Hypothesis lats_int : len lats * 100 <= GoInt.max_int.

Lemma current_rank (i : nat) :
  (i < length lats)%nat ->
  GoInt.div (GoInt.mul (Z.of_nat i) 100) (len lats) = rank (length lats) i.
Proof.
  intros Hi. unfold len in *.
  rewrite GoIntFacts.mul_small
    by (unfold GoInt.in_range, GoInt.min_int, GoInt.max_int in *; lia).
  rewrite GoIntFacts.div_nonneg by lia. reflexivity.
Qed.

Lemma latencies_loop_selected k : forall (i j : nat) data,
  (i + k = length lats)%nat -> (j <= length pctls)%nat ->
  exists is_,
    selected (length lats) i (drop j pctls) is_ /\
    latencies_loop k lats (Z.of_nat i) (Z.of_nat j) data =
      fill data j (map (fun i => at_ F64.zero lats (Z.of_nat i)) is_).
Proof.
  induction k as [|k IH]; intros i j data Hik Hj.
  - exists []. split; [|done].
    destruct (drop j pctls) as [|p ps]; [apply selected_done|].
    apply selected_stop. intros i' Hi'. lia.
  - cbn [latencies_loop].
    assert (Hi : (Z.of_nat i <? len lats) = true) by (apply Z.ltb_lt; unfold len; lia).
    rewrite Hi. cbn [andb].
    destruct (Z.ltb_spec (Z.of_nat j) (len pctls)) as [Hlt|Hge].
    + assert (Hjl : (j < length pctls)%nat) by (unfold len in Hlt; lia).
      destruct (lookup_lt_is_Some_2 pctls j Hjl) as [p Hp].
      rewrite (drop_S _ _ _ Hp).
      rewrite current_rank by lia.
      assert (Hat : at_ 0 pctls (Z.of_nat j) = p)
        by (apply at_lookup; by rewrite Nat2Z.id).
      rewrite Hat.
      assert (Hi1 : GoInt.add (Z.of_nat i) 1 = Z.of_nat (S i)).
      { rewrite GoIntFacts.incr_small; [lia|].
        unfold len, GoInt.max_int in *. lia. }
      assert (Hj1 : GoInt.add (Z.of_nat j) 1 = Z.of_nat (S j)).
      { rewrite GoIntFacts.incr_small; [lia|].
        unfold GoInt.max_int. cbn [pctls length] in Hjl. lia. }
      rewrite Hi1, Hj1, Nat2Z.id.
      destruct (Z.geb_spec (rank (length lats) i) p) as [Hge|Hlt'].
      * destruct (IH (S i) (S j) (<[j := at_ F64.zero lats (Z.of_nat i)]> data))
          as (is_ & Hsel & Hloop); [lia|lia|].
        exists (i :: is_). split.
        -- apply selected_next; [|done]. split; [lia|split; [lia|]]. intros i' Hi'. lia.
        -- rewrite Hloop. reflexivity.
      * destruct (IH (S i) j data) as (is_ & Hsel & Hloop); [lia|lia|].
        exists is_. split; [|done].
        rewrite (drop_S _ _ _ Hp) in Hsel. by apply selected_skip.
    + exists []. split; [|done].
      rewrite drop_ge by (unfold len in Hge; lia). apply selected_done.
Qed.

End latencies_loop.

(** *** The percentile entries *)

Section printLatencies.

Lemma gtb_zero_zero : F64.gtb F64.zero F64.zero = false.
Proof. reflexivity. Qed.

Lemma latencies_emit_eq data out :
  latencies_emit data out =
    out ++ map (fun i => Build_Percential (at_ 0 pctls (Z.of_nat i))
                                          (at_ F64.zero data (Z.of_nat i)))
               (List.filter (fun i => F64.gtb (at_ F64.zero data (Z.of_nat i)) F64.zero)
                            (seq 0 (length pctls))).
Proof. apply fold_left_append_if. Qed.

Lemma at_nil {A} (d : A) (i : Z) : at_ d [] i = d.
Proof. unfold at_. by rewrite lookup_nil. Qed.

Lemma at_O {A} (d x : A) l : at_ d (x :: l) (Z.of_nat 0) = x.
Proof. reflexivity. Qed.

Lemma at_S {A} (d x : A) l (i : nat) :
  at_ d (x :: l) (Z.of_nat (S i)) = at_ d l (Z.of_nat i).
Proof. unfold at_. by rewrite !Nat2Z.id. Qed.

Local Opaque F64.gtb.

Lemma latencies_emit_fill lats is_ out :
  (length is_ <= length pctls)%nat ->
  latencies_emit
    (fill (replicate (length pctls) F64.zero) 0
          (map (fun i => at_ F64.zero lats (Z.of_nat i)) is_)) out =
    out ++ percentile_entries lats pctls is_.
Proof.
  intros Hlen. rewrite latencies_emit_eq. f_equal.
  do 8 (destruct is_ as [|? is_];
        [cbn; rewrite ?at_S, ?at_O, ?gtb_zero_zero;
         repeat destruct (F64.gtb _ _); reflexivity|]).
  cbn in Hlen. lia.
Qed.

Lemma printLatencies_selected r :
  len (Lats r) * 100 <= GoInt.max_int ->
  exists is_,
    selected (length (Lats r)) 0 pctls is_ /\
    Percentiales (printLatencies r) =
      Percentiales r ++ percentile_entries (Lats r) pctls is_.
Proof.
  intros Hint.
  destruct (latencies_loop_selected (Lats r) Hint (length (Lats r)) 0 0
              (replicate (length pctls) F64.zero)) as (is_ & Hsel & Hloop);
    [lia|lia|].
  exists is_. split; [exact Hsel|].
  unfold printLatencies, latencies_data. fields.
  change 0 with (Z.of_nat 0) at 1 2. rewrite Hloop.
  apply latencies_emit_fill. apply (selected_length _ _ _ _ Hsel).
Qed.

End printLatencies.

(** *** The report of [finalize]: status codes, errors, rate, average *)

Lemma in_map_order_visits {K V : Type} : visits_each_once (@in_map_order K V).
Proof. intros l. reflexivity. Qed.

Lemma in_reverse_order_visits {K V : Type} : visits_each_once (@in_reverse_order K V).
Proof. intros l. unfold in_reverse_order. by rewrite <- Permutation_rev. Qed.

Lemma successes_int q : len q <= GoInt.max_int -> len (successes q) <= GoInt.max_int.
Proof. pose proof (successes_length q). unfold len. lia. Qed.

Lemma failures_length q : (length (failures q) <= length q)%nat.
Proof.
  induction q as [|res q IH]; [done|]. rewrite failures_cons.
  destruct (err res); simpl; lia.
Qed.

(** C1: [finalize] runs [printStatusCodes] twice, so the status-code
    distribution it produces holds TWO entries, not one, for every status
    code observed among the successful records, each with the number of
    occurrences of the code as its count (and no entry for any other code). *)
Theorem finalize_status_codes_twice (size : Z) (q : list result) (out : string)
    (total_ : Z) (o1 o2 : range_order Z Z) (fuel : nat) :
  visits_each_once o1 -> visits_each_once o2 ->
  len q <= GoInt.max_int -> (length q + 11 <= fuel)%nat ->
  exists r',
    finalize fuel o1 o2 (newReport size q out total_) = Some r' /\
    forall c,
      filter (fun sc => StatusCode_Code sc = c) (StatusCodes r') =
        if code_count c q =? 0 then []
        else [Build_StatusCode c (code_count c q);
              Build_StatusCode c (code_count c q)].
Proof.
  intros Ho1 Ho2 Hint Hfuel.
  destruct (finalize_result size q out total_ o1 o2 fuel Hint Hfuel)
    as (r' & Hfin & _ & _ & _ & _ & _ & _ & _ & Hnil & Hcons).
  exists r'. split; [exact Hfin|]. intros c.
  destruct (successes q) as [|res l] eqn:Hs.
  - destruct (Hnil eq_refl) as (_ & _ & -> & _).
    unfold code_count. by rewrite Hs.
  - destruct Hcons as (_ & _ & -> & _); [done|].
    rewrite filter_app, !filter_to_StatusCode.
    rewrite (range_filter_key o1) by done. rewrite (range_filter_key o2) by done.
    unfold code_dist. rewrite incr_fold_empty.
    + unfold code_count.
      by destruct (occurrences c (map statusCode (successes q)) =? 0).
    + unfold len. rewrite length_map. by apply successes_int.
Qed.

Lemma finalize_status_codes_twice_witness :
  exists r',
    finalize 16 in_map_order in_reverse_order
      (newReport 5 [ok 200 1000; ok 200 2000; ok 404 3000; ok 200 4000; ok 500 5000]
                 "csv" 1000000000) = Some r' /\
    forall c,
      filter (fun sc => StatusCode_Code sc = c) (StatusCodes r') =
        if code_count c [ok 200 1000; ok 200 2000; ok 404 3000; ok 200 4000; ok 500 5000] =? 0
        then []
        else [Build_StatusCode c (code_count c [ok 200 1000; ok 200 2000; ok 404 3000; ok 200 4000; ok 500 5000]);
              Build_StatusCode c (code_count c [ok 200 1000; ok 200 2000; ok 404 3000; ok 200 4000; ok 500 5000])].
Proof.
  apply finalize_status_codes_twice.
  - apply in_map_order_visits.
  - apply in_reverse_order_visits.
  - vm_compute. discriminate.
  - simpl. lia.
Defined.

(** The report for successes with the codes 200, 200, 404, 200, 500: six
    entries, two for each of the three codes. *)
Example finalize_status_codes_example :
  option_map StatusCodes
    (finalize 16 in_map_order in_map_order
       (newReport 5 [ok 200 1000; ok 200 2000; ok 404 3000; ok 200 4000; ok 500 5000]
                  "csv" 1000000000)) =
  Some [Build_StatusCode 500 1; Build_StatusCode 404 1; Build_StatusCode 200 3;
        Build_StatusCode 500 1; Build_StatusCode 404 1; Build_StatusCode 200 3].
Proof. vm_compute. reflexivity. Qed.

(** C9: in the error distribution that [printErrors] produces on demand from
    a finalized report, the failures that carry the same error text are one
    entry, whose count is the number of those failures (two failures with the
    same text: one entry with count 2); a text that no failure carries has no
    entry. *)
Theorem printErrors_collapses (size : Z) (q : list result) (out : string)
    (total_ : Z) (o1 o2 : range_order Z Z) (o : range_order string Z) (fuel : nat) :
  visits_each_once o ->
  len q <= GoInt.max_int -> (length q + 11 <= fuel)%nat ->
  exists r',
    finalize fuel o1 o2 (newReport size q out total_) = Some r' /\
    forall e,
      filter (fun x => Error_Error x = e) (Errors (printErrors o r')) =
        if error_count e q =? 0 then []
        else [Build_Error e (error_count e q)].
Proof.
  intros Ho Hint Hfuel.
  destruct (finalize_result size q out total_ o1 o2 fuel Hint Hfuel)
    as (r' & Hfin & _ & _ & _ & _ & _ & HE & HEr & _).
  exists r'. split; [exact Hfin|]. intros e.
  rewrite printErrors_eq. fields. rewrite HEr, HE. cbn [app].
  rewrite filter_to_Error, (range_filter_key o) by done.
  rewrite incr_fold_empty.
  - unfold error_count. by destruct (occurrences e (failures q) =? 0).
  - pose proof (failures_length q). unfold len in *. lia.
Qed.

Lemma printErrors_collapses_witness :
  exists r',
    finalize 14 in_map_order in_map_order
      (newReport 3 [ko "timeout"; ok 200 1000; ko "timeout"] "csv" 1000000000) = Some r' /\
    forall e,
      filter (fun x => Error_Error x = e) (Errors (printErrors in_reverse_order r')) =
        if error_count e [ko "timeout"; ok 200 1000; ko "timeout"] =? 0 then []
        else [Build_Error e (error_count e [ko "timeout"; ok 200 1000; ko "timeout"])].
Proof.
  apply printErrors_collapses.
  - apply in_reverse_order_visits.
  - vm_compute. discriminate.
  - simpl. lia.
Defined.

(** Two failures with the same text, then a third with another one. *)
Example printErrors_example :
  option_map (fun r => Errors (printErrors in_map_order r))
    (finalize 14 in_map_order in_map_order
       (newReport 3 [ko "timeout"; ko "timeout"; ko "refused"] "csv" 1000000000)) =
  Some [Build_Error "refused" 1; Build_Error "timeout" 2].
Proof. vm_compute. reflexivity. Qed.

(** C8: the requests per second that [finalize] reports are the number of
    records without an error divided by the total duration in seconds. *)
Theorem finalize_rps (size : Z) (q : list result) (out : string)
    (total_ : Z) (o1 o2 : range_order Z Z) (fuel : nat) :
  0 < total_ -> 0 < len (successes q) ->
  len q <= GoInt.max_int -> (length q + 11 <= fuel)%nat ->
  exists r',
    finalize fuel o1 o2 (newReport size q out total_) = Some r' /\
    RPS r' = F64.div (F64.of_int (len (successes q))) (GoTime.Seconds total_).
Proof.
  intros _ _ Hint Hfuel.
  destruct (finalize_result size q out total_ o1 o2 fuel Hint Hfuel)
    as (r' & Hfin & HR & _).
  exists r'. by split.
Qed.

Lemma finalize_rps_witness :
  exists r',
    finalize 14 in_map_order in_map_order
      (newReport 3 [ok 200 1000; ko "timeout"; ok 200 2000] "csv" 4000000000) = Some r' /\
    RPS r' =
      F64.div (F64.of_int (len (successes [ok 200 1000; ko "timeout"; ok 200 2000])))
              (GoTime.Seconds 4000000000).
Proof.
  apply finalize_rps.
  - lia.
  - vm_compute. reflexivity.
  - vm_compute. discriminate.
  - simpl. lia.
Defined.

(** Two successes and one failure in four seconds: 0.5 requests per second. *)
Example finalize_rps_example :
  option_map RPS
    (finalize 14 in_map_order in_map_order
       (newReport 3 [ok 200 1000; ko "timeout"; ok 200 2000] "csv" 4000000000)) =
  Some (S754_finite false 4503599627370496 (-53)).
Proof. vm_compute. reflexivity. Qed.
Lemma drain_SizeTotal_failures q : forall r,
  successes q = [] -> SizeTotal (drain q r) = SizeTotal r.
Proof.
  induction q as [|res q IH]; intros r Hs; cbn [drain]; [done|].
  rewrite successes_cons in Hs. unfold succeeded in Hs.
  destruct (err res) as [e|] eqn:E; [|done].
  rewrite IH by done. unfold receive. by rewrite E.
Qed.

(** Zero divided by a float that is neither a zero nor a NaN is a zero;
    divided by a zero it is a NaN. *)
Lemma div_zero_l (s : bool) (y : F64.t) :
  F64.is_nan y = false ->
  if F64.is_zero y then F64.div (S754_zero s) y = F64.nan
  else F64.is_zero (F64.div (S754_zero s) y) = true.
Proof. destruct y; simpl; done. Qed.

(** C2, as the code has it: when no successful record is drained,
    [finalize] returns before the status codes, the percentiles and the
    histogram are computed (no fuel is used), with an empty latency list and
    zero totals and extremes.  The average is a NaN.  The requests per second
    are computed before the return, as zero divided by the total duration in
    seconds: a NaN only when that duration is zero, and a zero otherwise. *)
Theorem finalize_no_successes (size : Z) (q : list result) (out : string)
    (total_ : Z) (o1 o2 : range_order Z Z) (fuel : nat) :
  successes q = [] ->
  exists r',
    finalize fuel o1 o2 (newReport size q out total_) = Some r' /\
    Lats r' = [] /\ AvgTotal r' = F64.zero /\ SizeTotal r' = 0 /\
    Fastest r' = F64.zero /\ Slowest r' = F64.zero /\
    StatusCodes r' = [] /\ Percentiales r' = [] /\ Histogram r' = [] /\
    Average r' = F64.nan /\
    RPS r' = F64.div F64.zero (GoTime.Seconds total_) /\
    (if F64.is_zero (GoTime.Seconds total_) then RPS r' = F64.nan
     else F64.is_zero (RPS r') = true).
Proof.
  intros Hs. unfold finalize. cbn [results newReport]. rewrite finalize_loop_drain.
  set (r0 := newReport size q out total_).
  pose proof (drain_Lats q r0) as HL. rewrite Hs in HL. cbn in HL.
  pose proof (drain_AvgTotal q r0) as HA. rewrite Hs in HA. cbn in HA.
  pose proof (drain_SizeTotal_failures q r0 Hs) as HZ. cbn in HZ.
  destruct (drain_untouched q r0) as (_ & HSc & HPc & HHi & HFa & HSl & HTo).
  cbn in HSc, HPc, HHi, HFa, HSl, HTo.
  unfold finish. fields. rewrite HL. cbn [GoSort.Float64s len length Z.of_nat Z.eqb].
  eexists. split; [reflexivity|]. fields.
  rewrite HA, HZ, HFa, HSl, HSc, HPc, HHi, HTo.
  split_and!; try done.
  apply (div_zero_l false), F64Round.Seconds_not_nan.
Qed.

Lemma finalize_no_successes_witness :
  exists r',
    finalize 0 in_map_order in_map_order
      (newReport 2 [ko "timeout"; ko "refused"] "csv" 1000000000) = Some r' /\
    Lats r' = [] /\ AvgTotal r' = F64.zero /\ SizeTotal r' = 0 /\
    Fastest r' = F64.zero /\ Slowest r' = F64.zero /\
    StatusCodes r' = [] /\ Percentiales r' = [] /\ Histogram r' = [] /\
    Average r' = F64.nan /\
    RPS r' = F64.div F64.zero (GoTime.Seconds 1000000000) /\
    (if F64.is_zero (GoTime.Seconds 1000000000) then RPS r' = F64.nan
     else F64.is_zero (RPS r') = true).
Proof. apply finalize_no_successes. reflexivity. Defined.

(** Against C2 as stated: two failures and no success in a run of one
    second.  The requests per second are reported as 0, not as a NaN. *)
Lemma finalize_no_successes_rps_not_nan :
  let r0 := newReport 2 [ko "timeout"; ko "refused"] "csv" 1000000000 in
  successes (results r0) = [] /\
  exists r',
    finalize 0 in_map_order in_map_order r0 = Some r' /\
    RPS r' = S754_zero false /\ F64.is_nan (RPS r') = false.
Proof.
  split; [reflexivity|]. eexists. split; [vm_compute; reflexivity|].
  split; reflexivity.
Qed.

(** With a total duration of zero the requests per second are a NaN. *)
Example finalize_no_successes_no_duration :
  option_map RPS
    (finalize 0 in_map_order in_map_order (newReport 0 [] "csv" 0)) = Some F64.nan.
Proof. vm_compute. reflexivity. Qed.

(** C3, as the code has it: the average that [finalize] reports is the sum of
    the durations of the successful records IN SECONDS divided by their
    number, while the latency list, and with it the fastest and the slowest
    latency, holds every duration in seconds times 1000. *)
Theorem finalize_average_seconds (size : Z) (q : list result) (out : string)
    (total_ : Z) (o1 o2 : range_order Z Z) (fuel : nat) :
  successes q <> [] ->
  len q <= GoInt.max_int -> (length q + 11 <= fuel)%nat ->
  exists r',
    finalize fuel o1 o2 (newReport size q out total_) = Some r' /\
    Average r' = mean (seconds_of q) /\
    Lats r' ≡ₚ map (fun s => F64.mul s (F64.of_int 1000)) (seconds_of q) /\
    Fastest r' = at_ F64.zero (Lats r') 0 /\
    Slowest r' = at_ F64.zero (Lats r') (len (Lats r') - 1).
Proof.
  intros Hne Hint Hfuel.
  destruct (finalize_result size q out total_ o1 o2 fuel Hint Hfuel)
    as (r' & Hfin & _ & HA & HAv & HL & _ & _ & _ & _ & Hcons).
  destruct (Hcons Hne) as (HF & HS & _).
  exists r'. split; [exact Hfin|]. rewrite HL. split_and!; try done.
  - rewrite HAv, HA. unfold mean, seconds_of, len. by rewrite length_map.
  - unfold sorted_latencies. rewrite GoSortFacts.Float64s_perm. unfold seconds_of.
    rewrite map_map. reflexivity.
Qed.

Lemma finalize_average_seconds_witness :
  exists r',
    finalize 13 in_map_order in_map_order
      (newReport 2 [ok 200 1000000000; ok 200 3000000000] "csv" 5000000000) = Some r' /\
    Average r' = mean (seconds_of [ok 200 1000000000; ok 200 3000000000]) /\
    Lats r' ≡ₚ map (fun s => F64.mul s (F64.of_int 1000))
                  (seconds_of [ok 200 1000000000; ok 200 3000000000]) /\
    Fastest r' = at_ F64.zero (Lats r') 0 /\
    Slowest r' = at_ F64.zero (Lats r') (len (Lats r') - 1).
Proof.
  apply finalize_average_seconds.
  - discriminate.
  - vm_compute. discriminate.
  - simpl. lia.
Defined.

(** Against C3 as stated: one successful request of one second.  The latency
    list is [1000] (milliseconds), its mean is 1000, and the average reported
    is 1. *)
Lemma finalize_average_not_milliseconds :
  exists r',
    finalize 12 in_map_order in_map_order
      (newReport 1 [ok 200 1000000000] "csv" 1000000000) = Some r' /\
    Lats r' = [F64.of_int 1000] /\
    mean (Lats r') = F64.of_int 1000 /\
    Average r' = F64.of_int 1 /\
    Average r' <> mean (Lats r').
Proof.
  eexists. split; [vm_compute; reflexivity|].
  split_and!; try (vm_compute; reflexivity). vm_compute. discriminate.
Qed.

(** *** The histogram; repeated invocations *)

Section collapsed.

Lemma sub_diag (s : bool) (m : positive) (e : Z) :
  F64.sub (S754_finite s m e) (S754_finite s m e) = S754_zero false.
Proof.
  unfold F64.sub, SFsub.
  set (x := cond_Zopp s _).
  assert (Hx : IntDef.Z.sub x x = 0) by apply Z.sub_diag.
  by rewrite Hx.
Qed.

Lemma eqb_finite_inv (x y : F64.t) :
  F64.eqb x y = true ->
  (F64.is_zero x = true /\ F64.is_zero y = true) \/
  (F64.is_zero x = false /\ x = y).
Proof.
  unfold F64.eqb, SFeqb.
  destruct x as [[]|[]| |[] mx ex], y as [[]|[]| |[] my ey]; simpl;
    try discriminate; auto;
    destruct (Z.compare_spec ex ey); try discriminate; subst;
    change (Pos.compare_cont Eq mx my) with (Pos.compare mx my);
    destruct (Pos.compare_spec mx my); try discriminate; subst; auto.
Qed.

Lemma eqb_leb (x y : F64.t) : F64.eqb x y = true -> F64.leb x y = true.
Proof.
  unfold F64.eqb, F64.leb, SFeqb, SFleb.
  by destruct (SFcompare x y) as [[]|].
Qed.

Lemma eqb_sym (x y : F64.t) : F64.eqb x y = true -> F64.eqb y x = true.
Proof.
  unfold F64.eqb, SFeqb. rewrite (F64Facts.compare_antisym x y).
  by destruct (SFcompare x y) as [[]|].
Qed.

Lemma eqb_refl (x : F64.t) : F64.is_nan x = false -> F64.eqb x x = true.
Proof.
  unfold F64.eqb, SFeqb.
  destruct x as [[]|[]| |[] mx ex]; simpl; try done; intros _;
    rewrite Z.compare_refl;
    change (Pos.compare_cont Eq mx mx) with (Pos.compare mx mx);
    by rewrite Pos.compare_refl.
Qed.

(** Equal extremes with a bucket size of zero are finite: the difference of
    two equal infinities is a NaN. *)
Lemma collapsed_finite r :
  F64.eqb (Fastest r) (Slowest r) = true ->
  F64.is_zero (bucket_size r) = true ->
  F64.is_finite (Fastest r) = true.
Proof.
  unfold bucket_size. intros Heq Hbs.
  destruct (Fastest r) as [sF|sF| |sF mF eF]; try reflexivity.
  - destruct (Slowest r) as [sS|sS| |sS mS eS], sF; try destruct sS;
      try (vm_compute in Heq; discriminate); vm_compute in Hbs; discriminate.
  - vm_compute in Heq. discriminate.
Qed.

(** With equal finite extremes every boundary equals the fastest latency. *)
Lemma bucket_bound_collapsed r (i : Z) :
  F64.is_finite (Fastest r) = true ->
  F64.eqb (Fastest r) (Slowest r) = true ->
  F64.is_finite (F64.of_int i) = true ->
  F64.eqb (bucket_bound r i) (Fastest r) = true.
Proof.
  unfold bucket_bound, bucket_size. intros Hfin Heq Hi.
  change (F64.of_int 10) with (S754_finite false 5629499534213120 (-49)).
  destruct (eqb_finite_inv _ _ Heq) as [[HzF HzS]|[HzF <-]].
  - destruct (Fastest r) as [sF| | |]; try done.
    destruct (Slowest r) as [sS| | |]; try done.
    destruct (F64.of_int i) as [si| | |si mi ei]; try done;
      destruct sF, sS; try destruct si; reflexivity.
  - destruct (Fastest r) as [| | |s m e]; try done.
    rewrite sub_diag.
    destruct (F64.of_int i) as [si| | |si mi ei]; try done;
      match goal with |- F64.eqb ?a ?b = true => change a with b end;
      by apply eqb_refl.
Qed.

End collapsed.

Lemma at_seq_all {A} (d : A) (l : list A) (n : nat) :
  length l = n ->
  map (fun i => at_ d l (Z.of_nat i)) (seq 0 n) = l.
Proof.
  revert n. induction l as [|x l IH]; intros n <-; [done|].
  cbn [length seq map]. rewrite at_O. f_equal.
  rewrite <- seq_shift, map_map.
  rewrite <- (IH (length l) eq_refl) at 2.
  apply map_ext. intros i. apply at_S.
Qed.

Lemma map_Bucket_Bucket buckets counts (n : nat) :
  map Bucket_Bucket
    (map (fun i => Build_Bucket (at_ F64.zero buckets (Z.of_nat i))
                                (at_ 0 counts (Z.of_nat i))) (seq 0 n)) =
  map (fun i => at_ F64.zero buckets (Z.of_nat i)) (seq 0 n).
Proof. by rewrite map_map. Qed.

Lemma map_Bucket_Count buckets counts (n : nat) :
  map Bucket_Count
    (map (fun i => Build_Bucket (at_ F64.zero buckets (Z.of_nat i))
                                (at_ 0 counts (Z.of_nat i))) (seq 0 n)) =
  map (fun i => at_ 0 counts (Z.of_nat i)) (seq 0 n).
Proof. by rewrite map_map. Qed.

(** C5: for a sorted latency list whose fastest latency is below its slowest
    one, [printHistogram] returns; it appends 11 entries, whose boundaries
    are the fastest latency plus [i] bucket sizes, the bucket size being
    [(Slowest - Fastest) / 10], for [i] from 0 to 9, and then the slowest
    latency itself; the counts of these entries add up to the number of
    latencies. *)
Theorem printHistogram_counts_all (r : Report) (fuel : nat) :
  GoSort.sorted (Lats r) ->
  Fastest r = at_ F64.zero (Lats r) 0 ->
  Slowest r = at_ F64.zero (Lats r) (len (Lats r) - 1) ->
  F64.ltb (Fastest r) (Slowest r) = true ->
  len (Lats r) <= GoInt.max_int ->
  (length (Lats r) + 11 <= fuel)%nat ->
  exists h,
    printHistogram fuel r = Some (set_Histogram (Histogram r ++ h) r) /\
    length h = 11%nat /\
    map Bucket_Bucket h =
      map (fun i =>
             F64.add (Fastest r)
               (F64.mul (F64.div (F64.sub (Slowest r) (Fastest r)) (F64.of_int 10))
                        (F64.of_int i)))
          [0; 1; 2; 3; 4; 5; 6; 7; 8; 9] ++ [Slowest r] /\
    histogram_total h = len (Lats r).
Proof.
  intros Hs HF HS Hlt Hint Hfuel.
  destruct (F64Facts.ltb_not_nan _ _ Hlt) as [HnF _].
  assert (Hne : Lats r <> []).
  { intros E. rewrite E in HF, HS. cbn in HF, HS. rewrite HF, HS in Hlt. done. }
  destruct (printHistogram_total fuel r Hs Hne) as (counts & Hp & Hc1 & _ & Hc3);
    try done; [by rewrite <- HF|].
  eexists. split; [exact Hp|]. split_and!.
  - by rewrite length_map, length_seq.
  - rewrite map_Bucket_Bucket. reflexivity.
  - unfold histogram_total. rewrite map_Bucket_Count, at_seq_all; [done|].
    unfold len in Hc1. lia.
Qed.

Lemma printHistogram_counts_all_witness :
  exists h,
    printHistogram 21 (with_latencies [1; 2; 3; 4; 5; 6; 7; 8; 9; 10]) =
      Some (set_Histogram
              (Histogram (with_latencies [1; 2; 3; 4; 5; 6; 7; 8; 9; 10]) ++ h)
              (with_latencies [1; 2; 3; 4; 5; 6; 7; 8; 9; 10])) /\
    length h = 11%nat /\
    map Bucket_Bucket h =
      map (fun i =>
             F64.add (Fastest (with_latencies [1; 2; 3; 4; 5; 6; 7; 8; 9; 10]))
               (F64.mul
                  (F64.div
                     (F64.sub (Slowest (with_latencies [1; 2; 3; 4; 5; 6; 7; 8; 9; 10]))
                              (Fastest (with_latencies [1; 2; 3; 4; 5; 6; 7; 8; 9; 10])))
                     (F64.of_int 10))
                  (F64.of_int i)))
          [0; 1; 2; 3; 4; 5; 6; 7; 8; 9] ++
      [Slowest (with_latencies [1; 2; 3; 4; 5; 6; 7; 8; 9; 10])] /\
    histogram_total h = len (Lats (with_latencies [1; 2; 3; 4; 5; 6; 7; 8; 9; 10])).
Proof.
  apply printHistogram_counts_all.
  - vm_compute. tauto.
  - reflexivity.
  - reflexivity.
  - vm_compute. reflexivity.
  - vm_compute. discriminate.
  - simpl. lia.
Defined.

(** The latencies 1, 2, ..., 10 ms: the boundaries are 1, 1.9, 2.8, ..., 9.1
    and 10, and only the bucket of 1.9 stays empty. *)
Example printHistogram_one_to_ten :
  option_map (fun r => map Bucket_Count (Histogram r))
    (printHistogram 21 (with_latencies [1; 2; 3; 4; 5; 6; 7; 8; 9; 10])) =
  Some [1; 0; 1; 1; 1; 1; 1; 1; 1; 1; 1].
Proof. vm_compute. reflexivity. Qed.
(** C6: when the fastest and the slowest latency of a sorted list are equal
    and the bucket size is zero, [printHistogram] returns, after one
    iteration per latency: the 11 boundaries all equal that latency, the
    first entry counts every latency and the ten others count none. *)
Theorem printHistogram_collapsed (r : Report) (fuel : nat) :
  GoSort.sorted (Lats r) -> Lats r <> [] ->
  Fastest r = at_ F64.zero (Lats r) 0 ->
  Slowest r = at_ F64.zero (Lats r) (len (Lats r) - 1) ->
  F64.eqb (Fastest r) (Slowest r) = true ->
  F64.is_zero (bucket_size r) = true ->
  len (Lats r) <= GoInt.max_int ->
  (length (Lats r) + 1 <= fuel)%nat ->
  exists h,
    printHistogram fuel r = Some (set_Histogram (Histogram r ++ h) r) /\
    map Bucket_Count h = len (Lats r) :: replicate 10 0 /\
    Forall (fun b => F64.eqb (Bucket_Bucket b) (Fastest r) = true) h.
Proof.
  intros Hs Hne HF HS Heq Hbs Hint Hfuel.
  assert (Hfin : F64.is_finite (Fastest r) = true)
    by (by apply (collapsed_finite r)).
  assert (HnF : F64.is_nan (Fastest r) = false) by (by destruct (Fastest r)).
  assert (Hb : forall i, 0 <= i < 10 ->
                 F64.eqb (bucket_bound r i) (Fastest r) = true).
  { intros i Hi. apply bucket_bound_collapsed; try done.
    assert (i = 0 \/ i = 1 \/ i = 2 \/ i = 3 \/ i = 4 \/ i = 5 \/ i = 6 \/
            i = 7 \/ i = 8 \/ i = 9) as Hc by lia.
    repeat destruct Hc as [->|Hc]; try subst i; reflexivity. }
  assert (Hle : forall x, x ∈ Lats r ->
                  F64.leb x (at_ F64.zero (histogram_buckets r) 0) = true).
  { intros x Hx. rewrite histogram_buckets_eq.
    change (at_ F64.zero _ 0) with (bucket_bound r 0).
    apply (F64Facts.leb_trans _ (Slowest r)).
    - rewrite HS, at_last.
      destruct (Lats r) as [|x0 l] eqn:El; [done|].
      destruct (last (x0 :: l)) as [y|] eqn:Ey; [|by apply last_None in Ey].
      cbn [default]. eapply sorted_le_last; eauto.
      by rewrite HF in HnF.
    - apply eqb_leb, eqb_sym.
      destruct (eqb_finite_inv _ _ Heq) as [[HzF HzS]|[HzF <-]].
      + pose proof (Hb 0 ltac:(lia)) as H0.
        destruct (eqb_finite_inv _ _ H0) as [[Hz0 _]|[Hz0 E]].
        * destruct (bucket_bound r 0) as [s0| | |]; try done.
          destruct (Slowest r) as [sS| | |]; try done.
        * rewrite E. exact Heq.
      + apply Hb. lia. }
  unfold printHistogram.
  rewrite (histogram_loop_stay (Lats r) (histogram_buckets r) Hint fuel 0 0 0
             (replicate (Z.to_nat (bc + 1)) 0) Hle).
  - rewrite histogram_emit_eq.
    assert (Hc : <[Z.to_nat 0 := at_ 0 (replicate (Z.to_nat (bc + 1)) 0) 0 +
                                 (len (Lats r) - 0)]>
                   (replicate (Z.to_nat (bc + 1)) 0) =
                 len (Lats r) :: replicate 10 0).
    { transitivity ((0 + (len (Lats r) - 0)) :: replicate 10 0);
        [reflexivity | f_equal; lia]. }
    rewrite Hc. eexists. split; [reflexivity|]. split.
    + rewrite map_Bucket_Count. by apply at_seq_all.
    + rewrite Forall_map, histogram_buckets_eq. cbn [map app length seq].
      repeat (constructor;
              [cbn [Bucket_Bucket]; rewrite ?at_S, at_O;
               first [apply Hb; lia | by apply eqb_sym]|]).
      constructor.
  - unfold len. lia.
  - done.
  - done.
  - change (at_ 0 (replicate (Z.to_nat (bc + 1)) 0) 0) with 0. lia.
  - unfold len. lia.
Qed.

Lemma printHistogram_collapsed_witness :
  exists h,
    printHistogram 4 (with_latencies [5; 5; 5]) =
      Some (set_Histogram (Histogram (with_latencies [5; 5; 5]) ++ h)
                          (with_latencies [5; 5; 5])) /\
    map Bucket_Count h = len (Lats (with_latencies [5; 5; 5])) :: replicate 10 0 /\
    Forall (fun b => F64.eqb (Bucket_Bucket b) (Fastest (with_latencies [5; 5; 5])) = true) h.
Proof.
  apply printHistogram_collapsed.
  - vm_compute. tauto.
  - discriminate.
  - reflexivity.
  - reflexivity.
  - vm_compute. reflexivity.
  - vm_compute. reflexivity.
  - vm_compute. discriminate.
  - simpl. lia.
Defined.

(** All latencies equal to 5 ms, through [finalize]. *)
Example finalize_all_equal :
  option_map (fun r => map Bucket_Count (Histogram r))
    (finalize 4 in_map_order in_map_order
       (newReport 3 [ok 200 5000000; ok 200 5000000; ok 200 5000000] "csv" 1000000000)) =
  Some [3; 0; 0; 0; 0; 0; 0; 0; 0; 0; 0].
Proof. vm_compute. reflexivity. Qed.

(** Through [finalize], for every queue with a successful record: the
    histogram has 11 entries and their counts add up to the number of
    successful records. *)
Lemma finalize_histogram_total (size : Z) (q : list result) (out : string)
    (total_ : Z) (o1 o2 : range_order Z Z) (fuel : nat) :
  successes q <> [] ->
  len q <= GoInt.max_int -> (length q + 11 <= fuel)%nat ->
  exists r',
    finalize fuel o1 o2 (newReport size q out total_) = Some r' /\
    length (Histogram r') = 11%nat /\
    histogram_total (Histogram r') = len (successes q).
Proof.
  intros Hne Hint Hfuel.
  destruct (finalize_result size q out total_ o1 o2 fuel Hint Hfuel)
    as (r' & Hfin & _ & _ & _ & _ & _ & _ & _ & _ & Hcons).
  destruct (Hcons Hne) as (_ & _ & _ & _ & counts & HH & Hc1 & _ & Hc3).
  exists r'. rewrite HH. split_and!; [done| |].
  - by rewrite length_map, length_seq.
  - unfold histogram_total. rewrite map_Bucket_Count, at_seq_all.
    + rewrite Hc3. unfold sorted_latencies, len.
      by rewrite GoSortFacts.Float64s_length, length_map.
    + unfold len in Hc1. lia.
Qed.

(** What the fuel stands for: with a latency that is not [<=] the last
    boundary, here a NaN, the counting loop changes nothing at the last
    bucket and never ends. *)
Lemma histogram_loop_spins lats buckets i max counts fuel :
  0 <= i < len lats ->
  F64.leb (at_ F64.zero lats i) (at_ F64.zero buckets (len buckets - 1)) = false ->
  histogram_loop fuel lats buckets i (len buckets - 1) max counts = None.
Proof.
  intros Hi Hcmp. induction fuel as [|fuel IH]; [done|].
  cbn [histogram_loop]. rewrite Hcmp, IH.
  destruct (Z.ltb_spec i (len lats)); [|lia].
  by rewrite Z.ltb_irrefl.
Qed.



(** *** The percentiles *)

Section rank.
Variable N : nat.

Lemma rank_mono (i i' : nat) : (i <= i')%nat -> rank N i <= rank N i'.
Proof.
  intros Hi. unfold rank.
  destruct N as [|n].
  - by rewrite !Z.div_0_r.
  - apply Z.div_le_mono; lia.
Qed.

Lemma rank_O : rank N 0 = 0.
Proof. reflexivity. Qed.

(** With 100 latencies or more, the rank grows by one at most from an
    index to the next. *)
Lemma rank_step (i : nat) : (100 <= N)%nat -> rank N (S i) <= rank N i + 1.
Proof.
  intros HN. unfold rank.
  replace (Z.of_nat i * 100 / Z.of_nat N + 1)
    with ((Z.of_nat i * 100 + 1 * Z.of_nat N) / Z.of_nat N)
    by (rewrite Z.div_add; lia).
  apply Z.div_le_mono; lia.
Qed.

(** With 100 latencies or more and increasing positive targets, every
    index of the walk is the first index of the whole list whose rank
    reaches the target. *)
Lemma selected_global start ps is_ :
  (100 <= N)%nat ->
  selected N start ps is_ ->
  Sorted Z.lt ps -> Forall (fun p => 0 < p) ps ->
  (forall i' p, (i' < start)%nat -> head ps = Some p -> rank N i' < p) ->
  forall (j i : nat) p,
    is_ !! j = Some i -> ps !! j = Some p -> first_from N p 0 i.
Proof.
  intros HN Hsel.
  induction Hsel as [s|s p ps Hall|s p ps i is_ Hf Hrest IH];
    intros Hsort Hpos Hlow j i0 p0 Hj Hp; try done.
  destruct Hf as (Hi & Hrk & Hmin).
  assert (Hbelow : forall i', (i' < i)%nat -> rank N i' < p).
  { intros i' Hi'. destruct (decide (i' < s)%nat); [by apply Hlow|].
    apply Hmin. lia. }
  destruct j as [|j].
  - cbn in Hj, Hp. injection Hj as <-. injection Hp as <-.
    split; [lia|split; [done|]]. intros i' Hi'. apply Hbelow. lia.
  - cbn in Hj, Hp.
    apply (IH (proj1 (Sorted_inv Hsort)) (Forall_inv_tail Hpos)) with (j := j);
      [|done|done].
    intros i' p' Hi' Hhead.
    assert (Hpp : p < p').
    { destruct ps as [|p1 ps]; [done|]. cbn in Hhead. injection Hhead as ->.
      apply Sorted_inv in Hsort as [_ Hhd]. by inversion Hhd. }
    assert (Hri : rank N i <= p).
    { destruct i as [|i].
      - rewrite rank_O. pose proof (Forall_inv Hpos). simpl in *. lia.
      - pose proof (rank_step i HN). pose proof (Hbelow i ltac:(lia)). lia. }
    pose proof (rank_mono i' i ltac:(lia)). lia.
Qed.

End rank.

Lemma pctls_sorted : Sorted Z.lt pctls.
Proof. repeat constructor. Qed.

Lemma pctls_positive : Forall (fun p => 0 < p) pctls.
Proof. repeat constructor. Qed.

(** C4, as the code has it: [printLatencies] walks the indexes of the
    latency list once and gives at most one target to an index.  The value of
    a target is the latency at the first index, after the index that the
    previous target took, whose rank [floor(i*100/N)] is at least the
    target; when no such index is left, this target and the later ones get no
    value.  The output holds an entry for every value that is greater than 0.
    With 100 latencies or more, the index of a target is the first index of
    the whole list whose rank is at least the target. *)
Theorem printLatencies_walk (r : Report) :
  len (Lats r) * 100 <= GoInt.max_int ->
  exists is_,
    selected (length (Lats r)) 0 pctls is_ /\
    Percentiales (printLatencies r) =
      Percentiales r ++ percentile_entries (Lats r) pctls is_ /\
    ((100 <= length (Lats r))%nat ->
     forall (j i : nat) p,
       is_ !! j = Some i -> pctls !! j = Some p ->
       first_from (length (Lats r)) p 0 i).
Proof.
  intros Hint.
  destruct (printLatencies_selected r Hint) as (is_ & Hsel & Hout).
  exists is_. split_and!; [done|done|].
  intros HN. apply (selected_global _ 0 pctls is_ HN Hsel pctls_sorted pctls_positive).
  intros i' p Hi'. lia.
Qed.

Lemma printLatencies_walk_witness :
  exists is_,
    selected (length (Lats (with_latencies [0; 0; 0; 1; 2; 3; 4; 5; 6; 7]))) 0 pctls is_ /\
    Percentiales (printLatencies (with_latencies [0; 0; 0; 1; 2; 3; 4; 5; 6; 7])) =
      Percentiales (with_latencies [0; 0; 0; 1; 2; 3; 4; 5; 6; 7]) ++
      percentile_entries (Lats (with_latencies [0; 0; 0; 1; 2; 3; 4; 5; 6; 7])) pctls is_ /\
    ((100 <= length (Lats (with_latencies [0; 0; 0; 1; 2; 3; 4; 5; 6; 7]%Z)))%nat ->
     forall (j i : nat) p,
       is_ !! j = Some i -> pctls !! j = Some p ->
       first_from (length (Lats (with_latencies [0; 0; 0; 1; 2; 3; 4; 5; 6; 7]))) p 0 i).
Proof.
  apply printLatencies_walk. vm_compute. discriminate.
Defined.

(** Against C4 as stated.  On the latencies 0, 0, 0, 1, 2, 3, 4, 5, 6, 7 the
    25th percentile is in the output, with the value 1; the entries left out
    are the 10th, whose value is 0, and the 95th and the 99th, which no index
    is left for.  On the latencies 1, 2, 3 the first index whose rank is at
    least 25 is 1, with the latency 2 and the rank 33, and it is also the
    first index whose rank is at least 10; the output gives 3 to the 25th
    percentile and nothing to the 50th, which the rank 66 of index 2
    reaches. *)
Lemma printLatencies_not_smallest :
  Percentiales (printLatencies (with_latencies [0; 0; 0; 1; 2; 3; 4; 5; 6; 7])) =
    [Build_Percential 25 (F64.of_int 1); Build_Percential 50 (F64.of_int 3);
     Build_Percential 75 (F64.of_int 6); Build_Percential 90 (F64.of_int 7)] /\
  Percentiales (printLatencies (with_latencies [1; 2; 3])) =
    [Build_Percential 10 (F64.of_int 2); Build_Percential 25 (F64.of_int 3)] /\
  first_from 3 25 0 1 /\ first_from 3 50 0 2 /\
  Lats (with_latencies [1; 2; 3]) !! 1%nat = Some (F64.of_int 2).
Proof.
  split_and!; try (vm_compute; reflexivity).
  - split; [lia|split; [vm_compute; discriminate|]].
    intros i' Hi'. assert (i' = 0%nat) as -> by lia. reflexivity.
  - split; [lia|split; [vm_compute; discriminate|]].
    intros i' Hi'. assert (i' = 0%nat \/ i' = 1%nat) as [-> | ->] by lia; reflexivity.
Qed.

(** The walk on the latencies 0, 0, 0, 1, 2, 3, 4, 5, 6, 7: the indexes 1, 3,
    5, 8 and 9 go to the targets 10, 25, 50, 75 and 90, and no index is left
    for 95 and 99.  The value of the 10th percentile is 0, so the output
    holds the entries of 25, 50, 75 and 90 only. *)
Example printLatencies_zeros :
  selected 10 0 pctls [1; 3; 5; 8; 9]%nat /\
  latencies_data (Lats (with_latencies [0; 0; 0; 1; 2; 3; 4; 5; 6; 7])) =
    map F64.of_int [0; 1; 3; 6; 7; 0; 0] /\
  map Percential_Percent
    (Percentiales (printLatencies (with_latencies [0; 0; 0; 1; 2; 3; 4; 5; 6; 7]))) =
    [25; 50; 75; 90].
Proof.
  split_and!; try (vm_compute; reflexivity).
  do 5 (apply selected_next;
        [split; [lia|split; [vm_compute; discriminate|]];
         intros i' Hi';
         do 9 (destruct i' as [|i']; [first [lia | reflexivity]|]); lia|]).
  apply selected_stop. intros i Hi. lia.
Qed.

(** C10: the percentile output of [printLatencies] holds the value of a
    target exactly when the value is greater than 0.  A value that is not,
    and so every negative value, leaves no entry for its target. *)
Theorem printLatencies_omits_nonpositive (r : Report) :
  exists es,
    Percentiales (printLatencies r) = Percentiales r ++ es /\
    forall j : nat, (j < length pctls)%nat ->
      let v := at_ F64.zero (latencies_data (Lats r)) (Z.of_nat j) in
      let p := at_ 0 pctls (Z.of_nat j) in
      (F64.gtb v F64.zero = true -> Build_Percential p v ∈ es) /\
      (F64.gtb v F64.zero = false ->
       forall e, e ∈ es -> Percential_Percent e <> p) /\
      (F64.ltb v F64.zero = true -> F64.gtb v F64.zero = false).
Proof.
  eexists. split.
  - unfold printLatencies. fields. apply latencies_emit_eq.
  - intros j Hj v p. split_and!.
    + intros Hv. apply list_elem_of_In, in_map_iff. exists j. split; [done|].
      apply filter_In. split; [apply in_seq; lia | exact Hv].
    + intros Hv e He Hp.
      apply list_elem_of_In, in_map_iff in He as (i & <- & Hi).
      apply filter_In in Hi as [Hi Hgt]. apply in_seq in Hi.
      cbn [Percential_Percent] in Hp.
      assert (i = j); [|subst i; unfold v in Hv; congruence].
      cbn [pctls length] in Hi, Hj. unfold p in Hp.
      do 7 (destruct i as [|i]; [do 7 (destruct j as [|j]; [done|]); lia|]). lia.
    + unfold F64.gtb, F64.ltb, SFltb. by destruct (SFcompare v F64.zero) as [[]|].
Qed.

(** Negative latencies (a success record may carry a negative duration):
    the 10th and the 25th percentile fall on -4 and -2, the 50th on 0, and
    all three are left out. *)
Example printLatencies_negative :
  Percentiales (printLatencies (with_latencies [-5; -4; -3; -2; -1; 0; 1; 2; 3; 4])) =
    [Build_Percential 75 (F64.of_int 3); Build_Percential 90 (F64.of_int 4)] /\
  latencies_data (Lats (with_latencies [-5; -4; -3; -2; -1; 0; 1; 2; 3; 4])) =
    map F64.of_int [-4; -2; 0; 3; 4; 0; 0].
Proof. split; vm_compute; reflexivity. Qed.

Lemma printLatencies_omits_nonpositive_witness :
  exists es,
    Percentiales (printLatencies (with_latencies [-5; -4; -3; -2; -1; 0; 1; 2; 3; 4])) =
      Percentiales (with_latencies [-5; -4; -3; -2; -1; 0; 1; 2; 3; 4]) ++ es /\
    forall j : nat, (j < length pctls)%nat ->
      let v := at_ F64.zero
                 (latencies_data (Lats (with_latencies [-5; -4; -3; -2; -1; 0; 1; 2; 3; 4]%Z)))
                 (Z.of_nat j) in
      let p := at_ 0 pctls (Z.of_nat j) in
      (F64.gtb v F64.zero = true -> Build_Percential p v ∈ es) /\
      (F64.gtb v F64.zero = false ->
       forall e, e ∈ es -> Percential_Percent e <> p) /\
      (F64.ltb v F64.zero = true -> F64.gtb v F64.zero = false).
Proof.
  apply (printLatencies_omits_nonpositive
           (with_latencies [-5; -4; -3; -2; -1; 0; 1; 2; 3; 4])).
Defined.

(** The same through [finalize]: ten successful records with the durations
    -5 ms, ..., 4 ms, in any order.  Only the 75th and the 90th percentile are
    reported. *)
Example finalize_negative_durations :
  option_map (fun r => (Lats r, map Percential_Percent (Percentiales r)))
    (finalize 21 in_map_order in_map_order
       (newReport 10
          (map (fun d => ok 200 (d * 1000000)) [4; -5; 3; -4; 2; -3; 1; -2; 0; -1])
          "csv" 1000000000)) =
  Some (map F64.of_int [-5; -4; -3; -2; -1; 0; 1; 2; 3; 4], [75; 90]).
Proof. vm_compute. reflexivity. Qed.

(** *** More on the sorted latencies: extremes and order *)

Lemma sorted_ge_first l : forall x0,
  GoSort.sorted (x0 :: l) -> F64.is_nan x0 = false ->
  forall x, x ∈ x0 :: l -> F64.leb x0 x = true.
Proof.
  induction l as [|x1 l IH]; intros x0 Hs H0 x Hx.
  - apply list_elem_of_singleton in Hx. subst. by apply F64Facts.leb_refl.
  - apply elem_of_cons in Hx as [->|Hx]; [by apply F64Facts.leb_refl|].
    assert (H1 : F64.is_nan x1 = false).
    { apply (sorted_not_nan _ _ Hs H0), elem_of_cons. right. apply elem_of_cons. by left. }
    destruct Hs as [Hless Hs].
    apply (F64Facts.leb_trans _ x1).
    + apply F64Facts.leb_total; auto.
      unfold GoSort.less in Hless. by apply orb_false_iff in Hless as [? _].
    + by apply IH.
Qed.

Lemma sorted_drop l (n : nat) : GoSort.sorted l -> GoSort.sorted (drop n l).
Proof.
  revert l. induction n as [|n IH]; intros l Hs; [by rewrite drop_0|].
  destruct l as [|x l]; [done|]. cbn [drop]. apply IH.
  by apply GoSortFacts.sorted_tail in Hs.
Qed.

(** In a sorted list, a latency that is not a NaN is at or below every later
    one. *)
Lemma sorted_lookup_le l (i j : nat) x y :
  GoSort.sorted l -> (i <= j)%nat ->
  l !! i = Some x -> l !! j = Some y -> F64.is_nan x = false ->
  F64.leb x y = true.
Proof.
  intros Hs Hij Hx Hy Hn.
  pose proof (sorted_drop l i Hs) as Hd.
  assert (Hdx : drop i l !! 0%nat = Some x) by (by rewrite lookup_drop, Nat.add_0_r).
  assert (Hdy : drop i l !! (j - i)%nat = Some y).
  { rewrite lookup_drop. by replace (i + (j - i))%nat with j by lia. }
  destruct (drop i l) as [|x0 l'] eqn:E; [done|].
  cbn in Hdx. injection Hdx as ->.
  apply (sorted_ge_first l' x Hd Hn). by eapply list_elem_of_lookup_2.
Qed.

Lemma sorted_latencies_not_nan q x :
  x ∈ sorted_latencies q -> F64.is_nan x = false.
Proof.
  unfold sorted_latencies. rewrite GoSortFacts.Float64s_perm.
  intros (res & -> & _)%list_elem_of_fmap. apply latency_ms_not_nan.
Qed.

(** What [finish] leaves as it finds it. *)
Lemma finish_keeps fuel o1 o2 r r' :
  finish fuel o1 o2 r = Some r' ->
  errorDist r' = errorDist r /\ statusCodeDist r' = statusCodeDist r /\
  results r' = results r /\ SizeTotal r' = SizeTotal r /\
  AvgTotal r' = AvgTotal r /\ Errors r' = Errors r /\
  TotalDuration r' = TotalDuration r /\ total r' = total r /\ output r' = output r.
Proof.
  unfold finish. fields.
  destruct (len (GoSort.Float64s (Lats r)) =? 0).
  - intros [= <-]. by fields.
  - unfold printHistogram, printLatencies. rewrite !printStatusCodes_eq. fields.
    destruct (histogram_loop _ _ _ _ _ _ _); [|done].
    intros [= <-]. by fields.
Qed.

(** X1: the fastest and the slowest latency that [finalize] reports are
    latencies of successful records, and the latency of every successful
    record lies between them. *)
Theorem finalize_fastest_slowest (size : Z) (q : list result) (out : string)
    (total_ : Z) (o1 o2 : range_order Z Z) (fuel : nat) :
  successes q <> [] ->
  len q <= GoInt.max_int -> (length q + 11 <= fuel)%nat ->
  exists r',
    finalize fuel o1 o2 (newReport size q out total_) = Some r' /\
    Fastest r' ∈ map latency_ms (successes q) /\
    Slowest r' ∈ map latency_ms (successes q) /\
    forall res, res ∈ q -> err res = None ->
      F64.leb (Fastest r') (latency_ms res) = true /\
      F64.leb (latency_ms res) (Slowest r') = true.
Proof.
  intros Hne Hint Hfuel.
  destruct (finalize_result size q out total_ o1 o2 fuel Hint Hfuel)
    as (r' & Hfin & _ & _ & _ & HL & _ & _ & _ & _ & Hcons).
  destruct (Hcons Hne) as (HF & HS & _).
  exists r'. split; [exact Hfin|].
  pose proof (GoSortFacts.Float64s_sorted (map latency_ms (successes q))) as Hs.
  pose proof (GoSortFacts.Float64s_perm (map latency_ms (successes q))) as Hp.
  fold (sorted_latencies q) in Hs, Hp.
  assert (Hlen : (0 < length (sorted_latencies q))%nat).
  { rewrite Hp, length_map. destruct (successes q); [done|simpl; lia]. }
  assert (HFin : Fastest r' ∈ sorted_latencies q).
  { rewrite HF. apply at_elem_of. unfold len. lia. }
  assert (HSin : Slowest r' ∈ sorted_latencies q).
  { rewrite HS. apply at_elem_of. unfold len. lia. }
  split_and!.
  - by rewrite <- Hp.
  - by rewrite <- Hp.
  - intros res Hres Herr.
    assert (Hin : latency_ms res ∈ sorted_latencies q).
    { rewrite Hp. apply list_elem_of_fmap. exists res. split; [done|].
      apply list_elem_of_In, filter_In. split; [by apply list_elem_of_In|].
      unfold succeeded. by rewrite Herr. }
    destruct (sorted_latencies q) as [|x0 l] eqn:El; [simpl in Hlen; lia|].
    assert (Hn0 : F64.is_nan x0 = false).
    { apply (sorted_latencies_not_nan q). rewrite El. apply elem_of_cons. by left. }
    split.
    + rewrite HF. change (at_ F64.zero (x0 :: l) 0) with x0.
      by apply (sorted_ge_first l x0 Hs Hn0).
    + rewrite HS, at_last.
      destruct (last (x0 :: l)) as [y|] eqn:Ey; [|by apply last_None in Ey].
      cbn [default]. by apply (sorted_le_last l x0 y Hs Hn0 Ey).
Qed.

Lemma finalize_fastest_slowest_witness :
  exists r',
    finalize 14 in_map_order in_map_order
      (newReport 3 [ok 200 3000000; ko "timeout"; ok 200 1000000] "csv" 1000000000)
      = Some r' /\
    Fastest r' ∈ map latency_ms (successes [ok 200 3000000; ko "timeout"; ok 200 1000000]) /\
    Slowest r' ∈ map latency_ms (successes [ok 200 3000000; ko "timeout"; ok 200 1000000]) /\
    forall res, res ∈ [ok 200 3000000; ko "timeout"; ok 200 1000000] -> err res = None ->
      F64.leb (Fastest r') (latency_ms res) = true /\
      F64.leb (latency_ms res) (Slowest r') = true.
Proof.
  apply finalize_fastest_slowest.
  - discriminate.
  - vm_compute. discriminate.
  - simpl. lia.
Defined.

(** X2: the latency list that [finalize] leaves holds the latency of every
    successful record, once per record, has no NaN, and is in ascending
    order: an entry is at or below every later one. *)
Theorem finalize_latencies_ascending (size : Z) (q : list result) (out : string)
    (total_ : Z) (o1 o2 : range_order Z Z) (fuel : nat) :
  len q <= GoInt.max_int -> (length q + 11 <= fuel)%nat ->
  exists r',
    finalize fuel o1 o2 (newReport size q out total_) = Some r' /\
    Lats r' ≡ₚ map latency_ms (successes q) /\
    Forall (fun x => F64.is_nan x = false) (Lats r') /\
    forall (i j : nat) x y,
      (i <= j)%nat -> Lats r' !! i = Some x -> Lats r' !! j = Some y ->
      F64.leb x y = true.
Proof.
  intros Hint Hfuel.
  destruct (finalize_result size q out total_ o1 o2 fuel Hint Hfuel)
    as (r' & Hfin & _ & _ & _ & HL & _).
  exists r'. split; [exact Hfin|]. rewrite HL. split_and!.
  - apply GoSortFacts.Float64s_perm.
  - apply Forall_forall. intros x Hx.
    by apply (sorted_latencies_not_nan q).
  - intros i j x y Hij Hx Hy.
    apply (sorted_lookup_le (sorted_latencies q) i j); try done.
    + apply GoSortFacts.Float64s_sorted.
    + apply (sorted_latencies_not_nan q). by eapply list_elem_of_lookup_2.
Qed.

Lemma finalize_latencies_ascending_witness :
  exists r',
    finalize 14 in_map_order in_map_order
      (newReport 3 [ok 200 3000000; ko "timeout"; ok 200 1000000] "csv" 1000000000)
      = Some r' /\
    Lats r' ≡ₚ map latency_ms (successes [ok 200 3000000; ko "timeout"; ok 200 1000000]) /\
    Forall (fun x => F64.is_nan x = false) (Lats r') /\
    forall (i j : nat) x y,
      (i <= j)%nat -> Lats r' !! i = Some x -> Lats r' !! j = Some y ->
      F64.leb x y = true.
Proof.
  apply finalize_latencies_ascending.
  - vm_compute. discriminate.
  - simpl. lia.
Defined.

(** *** More on draining: bytes, counters, failed records *)

Lemma counted_sizes_cons res q :
  counted_sizes (res :: q) =
    if succeeded res && (contentLength res >? 0)
    then contentLength res :: counted_sizes q
    else counted_sizes q.
Proof.
  unfold counted_sizes. rewrite successes_cons.
  destruct (succeeded res); [|done]. cbn [map List.filter andb].
  by destruct (contentLength res >? 0).
Qed.

Lemma drain_SizeTotal q : forall r,
  SizeTotal (drain q r) = fold_left GoInt.add (counted_sizes q) (SizeTotal r).
Proof.
  induction q as [|res q IH]; intros r; cbn [drain]; [done|].
  rewrite IH, counted_sizes_cons. unfold receive, succeeded.
  destruct (err res); [done|]. cbn [andb].
  destruct (contentLength res >? 0); by fields.
Qed.

Lemma counted_sizes_positive q : Forall (fun n => 0 < n) (counted_sizes q).
Proof.
  unfold counted_sizes. apply Forall_forall. intros n Hn.
  apply list_elem_of_In, filter_In in Hn as [_ Hn]. by apply Z.gtb_lt in Hn.
Qed.

Lemma sum_counts_cons (n : Z) (l : list Z) : sum_counts (n :: l) = n + sum_counts l.
Proof. reflexivity. Qed.

Lemma sum_counts_positive (l : list Z) :
  Forall (fun n => 0 < n) l -> 0 <= sum_counts l.
Proof.
  induction 1 as [|n l Hn Hl IH]; [done|]. rewrite sum_counts_cons. lia.
Qed.

Lemma fold_add_small (l : list Z) : forall a,
  Forall (fun n => 0 < n) l -> 0 <= a -> a + sum_counts l <= GoInt.max_int ->
  fold_left GoInt.add l a = a + sum_counts l.
Proof.
  induction l as [|n l IH]; intros a Hl Ha Hsum.
  - cbn. lia.
  - apply Forall_cons in Hl as [Hn Hl].
    pose proof (sum_counts_positive l Hl).
    rewrite sum_counts_cons in Hsum |- *. cbn [fold_left].
    rewrite GoIntFacts.add_small
      by (unfold GoInt.in_range, GoInt.min_int, GoInt.max_int in *; lia).
    rewrite IH; [|done|lia|lia]. lia.
Qed.

Lemma drain_results q : forall r, results (drain q r) = if q is [] then results r else [].
Proof.
  induction q as [|res q IH]; intros r; cbn [drain]; [done|].
  rewrite IH. destruct q; [|done].
  unfold receive. destruct (err res); [done|].
  by destruct (contentLength res >? 0).
Qed.

(** X3: the byte total that [finalize] reports is the sum of the content
    lengths of the successful records whose content length is positive;
    other content lengths and the failed records add nothing to it.  (The
    sum is assumed to fit an int64.) *)
Theorem finalize_size_total (size : Z) (q : list result) (out : string)
    (total_ : Z) (o1 o2 : range_order Z Z) (fuel : nat) :
  sum_counts (counted_sizes q) <= GoInt.max_int ->
  len q <= GoInt.max_int -> (length q + 11 <= fuel)%nat ->
  exists r',
    finalize fuel o1 o2 (newReport size q out total_) = Some r' /\
    SizeTotal r' = sum_counts (counted_sizes q).
Proof.
  intros Hsum Hint Hfuel.
  destruct (finalize_result size q out total_ o1 o2 fuel Hint Hfuel)
    as (r' & Hfin & _).
  exists r'. split; [exact Hfin|].
  unfold finalize in Hfin. cbn [results newReport] in Hfin.
  rewrite finalize_loop_drain in Hfin.
  destruct (finish_keeps _ _ _ _ _ Hfin) as (_ & _ & _ & -> & _).
  rewrite drain_SizeTotal. cbn [SizeTotal newReport].
  rewrite fold_add_small; [lia| |lia|lia]. apply counted_sizes_positive.
Qed.

Lemma finalize_size_total_witness :
  exists r',
    finalize 15 in_map_order in_map_order
      (newReport 4 [Build_result None 200 1000 120; Build_result None 200 1000 (-1);
                    Build_result (Some "reset") 0 0 500; Build_result None 404 1000 30]
                 "csv" 1000000000) = Some r' /\
    SizeTotal r' =
      sum_counts (counted_sizes
        [Build_result None 200 1000 120; Build_result None 200 1000 (-1);
         Build_result (Some "reset") 0 0 500; Build_result None 404 1000 30]).
Proof.
  apply finalize_size_total.
  - vm_compute. discriminate.
  - vm_compute. discriminate.
  - simpl. lia.
Defined.

(** 120 and 30 bytes are counted; the unknown length -1 and the 500 bytes of
    the failed record are not. *)
Example finalize_size_total_example :
  option_map SizeTotal
    (finalize 15 in_map_order in_map_order
       (newReport 4 [Build_result None 200 1000 120; Build_result None 200 1000 (-1);
                     Build_result (Some "reset") 0 0 500; Build_result None 404 1000 30]
                  "csv" 1000000000)) = Some 150.
Proof. vm_compute. reflexivity. Qed.

(** X4: [finalize] empties the channel and builds both maps of counters,
    one entry per status code of a successful record and one per error text
    of a failed record, each with the number of those records; it leaves the
    list [Errors] empty, whatever failed. *)
Theorem finalize_counters (size : Z) (q : list result) (out : string)
    (total_ : Z) (o1 o2 : range_order Z Z) (fuel : nat) :
  len q <= GoInt.max_int -> (length q + 11 <= fuel)%nat ->
  exists r',
    finalize fuel o1 o2 (newReport size q out total_) = Some r' /\
    results r' = [] /\ Errors r' = [] /\
    (forall c, statusCodeDist r' !! c =
               if code_count c q =? 0 then None else Some (code_count c q)) /\
    (forall e, errorDist r' !! e =
               if error_count e q =? 0 then None else Some (error_count e q)).
Proof.
  intros Hint Hfuel.
  destruct (finalize_result size q out total_ o1 o2 fuel Hint Hfuel)
    as (r' & Hfin & _ & _ & _ & _ & HS & HE & HEr & _).
  exists r'. split; [exact Hfin|]. split_and!.
  - unfold finalize in Hfin. cbn [results newReport] in Hfin.
    rewrite finalize_loop_drain in Hfin.
    destruct (finish_keeps _ _ _ _ _ Hfin) as (_ & _ & -> & _).
    rewrite drain_results. by destruct q.
  - done.
  - intros c. rewrite HS. unfold code_dist. rewrite incr_fold_empty; [done|].
    unfold len. rewrite length_map. by apply successes_int.
  - intros e. rewrite HE, incr_fold_empty; [done|].
    pose proof (failures_length q). unfold len in *. lia.
Qed.

Lemma finalize_counters_witness :
  exists r',
    finalize 14 in_map_order in_map_order
      (newReport 3 [ko "timeout"; ok 200 1000; ko "timeout"] "csv" 1000000000) = Some r' /\
    results r' = [] /\ Errors r' = [] /\
    (forall c, statusCodeDist r' !! c =
               if code_count c [ko "timeout"; ok 200 1000; ko "timeout"] =? 0 then None
               else Some (code_count c [ko "timeout"; ok 200 1000; ko "timeout"])) /\
    (forall e, errorDist r' !! e =
               if error_count e [ko "timeout"; ok 200 1000; ko "timeout"] =? 0 then None
               else Some (error_count e [ko "timeout"; ok 200 1000; ko "timeout"])).
Proof.
  apply finalize_counters.
  - vm_compute. discriminate.
  - simpl. lia.
Defined.

(** *** Failed records and the rest of the report *)

Lemma receive_respects res rs1 rs2 r1 r2 :
  without_errors r1 = without_errors r2 ->
  without_errors (receive res (set_results rs1 r1)) =
  without_errors (receive res (set_results rs2 r2)).
Proof.
  destruct r1, r2. unfold without_errors. fields. intros [= -> -> -> -> -> -> -> -> -> -> -> -> -> -> ->].
  unfold receive. fields. destruct (err res); [done|].
  fields. by destruct (contentLength res >? 0).
Qed.

Lemma receive_failure res r :
  succeeded res = false -> without_errors (receive res r) = without_errors r.
Proof.
  unfold succeeded, receive. destruct (err res); [|done]. intros _.
  by destruct r.
Qed.

Lemma without_errors_set_results rs r :
  without_errors (set_results rs r) = without_errors r.
Proof. by destruct r. Qed.

Lemma drain_successes q : forall r1 r2,
  without_errors r1 = without_errors r2 ->
  without_errors (drain q r1) = without_errors (drain (successes q) r2).
Proof.
  induction q as [|res q IH]; intros r1 r2 H; [done|].
  rewrite successes_cons. cbn [drain]. destruct (succeeded res) eqn:Hres.
  - cbn [drain]. apply IH. by apply receive_respects.
  - apply IH. by rewrite receive_failure, without_errors_set_results.
Qed.

Lemma finish_respects fuel o1 o2 r1 r2 :
  without_errors r1 = without_errors r2 ->
  option_map without_errors (finish fuel o1 o2 r1) =
  option_map without_errors (finish fuel o1 o2 r2).
Proof.
  destruct r1, r2. unfold without_errors. fields.
  intros [= -> -> -> -> -> -> -> -> -> -> -> -> -> -> ->].
  unfold finish, printHistogram, printLatencies, histogram_buckets.
  rewrite !printStatusCodes_eq. fields.
  destruct (len (GoSort.Float64s _) =? 0); [done|].
  destruct (histogram_loop _ _ _ _ _ _ _); done.
Qed.

(** X5: a failed record changes nothing in the report of [finalize] but the
    counter of its error text: up to the map of error counters, the report
    for a queue is the report for its successful records alone (and the one
    fails to return exactly when the other does). *)
Theorem finalize_ignores_failures (size : Z) (q : list result) (out : string)
    (total_ : Z) (o1 o2 : range_order Z Z) (fuel : nat) :
  option_map without_errors
    (finalize fuel o1 o2 (newReport size q out total_)) =
  option_map without_errors
    (finalize fuel o1 o2 (newReport size (successes q) out total_)).
Proof.
  unfold finalize. cbn [results newReport]. rewrite !finalize_loop_drain.
  apply finish_respects, drain_successes. reflexivity.
Qed.

(** *** What the histogram counts *)

Lemma first_bucket_Some buckets x (k : nat) :
  first_bucket buckets x = Some k <->
  (exists b, buckets !! k = Some b /\ F64.leb x b = true) /\
  (forall (k' : nat) b', (k' < k)%nat -> buckets !! k' = Some b' -> F64.leb x b' = false).
Proof.
  revert k. induction buckets as [|b0 buckets IH]; intros k; cbn [first_bucket].
  - split; [done|]. by intros [(b & Hb & _) _].
  - destruct (F64.leb x b0) eqn:E.
    + split.
      * intros [= <-]. split; [by exists b0|]. intros k' b' Hk'. lia.
      * intros [(b & Hb & Hle) Hmin]. destruct k as [|k]; [done|].
        specialize (Hmin 0%nat b0 ltac:(lia) eq_refl). congruence.
    + destruct k as [|k].
      * split.
        -- by destruct (first_bucket buckets x).
        -- intros [(b & [= <-] & Hle) _]. congruence.
      * split.
        -- intros Hf.
           assert (Ef : first_bucket buckets x = Some k).
           { destruct (first_bucket buckets x) as [k0|]; [|done].
             cbn in Hf. by injection Hf as ->. }
           apply IH in Ef as [Hex Hmin]. split; [exact Hex|].
           intros k' b' Hk' Hb'. destruct k' as [|k'].
           ++ injection Hb' as <-. exact E.
           ++ apply (Hmin k' b'); [lia | exact Hb'].
        -- intros [Hex Hmin].
           assert (first_bucket buckets x = Some k) as ->; [|done].
           apply IH. split; [exact Hex|]. intros k' b' Hk' Hb'.
           apply (Hmin (S k') b'); [lia | exact Hb'].
Qed.

Lemma bucket_population_snoc buckets lats x (k : nat) :
  bucket_population buckets (lats ++ [x]) k =
    bucket_population buckets lats k +
    (if bool_decide (first_bucket buckets x = Some k) then 1 else 0).
Proof.
  unfold bucket_population, len. rewrite List.filter_app, length_app.
  cbn [List.filter]. destruct (bool_decide _); cbn [length]; lia.
Qed.

Lemma bucket_population_bounds buckets lats (k : nat) :
  0 <= bucket_population buckets lats k <= len lats.
Proof.
  unfold bucket_population, len.
  pose proof (List.filter_length_le
                (fun x => bool_decide (first_bucket buckets x = Some k)) lats). lia.
Qed.

Section histogram_population.
Variables lats buckets : list F64.t.
Hypothesis lats_int : len lats <= GoInt.max_int.
Hypothesis buckets_int : len buckets <= GoInt.max_int.
Hypothesis ascending :
  forall (i j : nat) x y,
    (i <= j)%nat -> lats !! i = Some x -> lats !! j = Some y -> F64.leb x y = true.
Hypothesis below_last :
  forall x, x ∈ lats -> F64.leb x (at_ F64.zero buckets (len buckets - 1)) = true.

(** The counting loop on ascending latencies: when the cursor is at bucket
    [bi], no latency that is left is at or below an earlier boundary, so the
    bucket that takes a latency is its first bucket. *)
Lemma histogram_loop_population fuel : forall (i bi : nat) max counts,
  (i <= length lats)%nat -> (bi < length buckets)%nat ->
  length counts = length buckets ->
  (forall k : nat, (k < length buckets)%nat ->
     counts !! k = Some (bucket_population buckets (take i lats) k)) ->
  (forall (k j : nat) b y, (k < bi)%nat -> (i <= j)%nat ->
     buckets !! k = Some b -> lats !! j = Some y -> F64.leb y b = false) ->
  (length lats - i + (length buckets - 1 - bi) + 1 <= fuel)%nat ->
  exists counts',
    histogram_loop fuel lats buckets (Z.of_nat i) (Z.of_nat bi) max counts =
      Some counts' /\
    length counts' = length buckets /\
    forall k : nat, (k < length buckets)%nat ->
      counts' !! k = Some (bucket_population buckets lats k).
Proof.
  induction fuel as [|fuel IH]; intros i bi max counts Hi Hbi Hlen Hpop Hlow Hfuel;
    [lia|].
  cbn [histogram_loop].
  destruct (Z.ltb_spec (Z.of_nat i) (len lats)) as [Hlt|Hge].
  - assert (Hil : (i < length lats)%nat) by (unfold len in Hlt; lia).
    destruct (lookup_lt_is_Some_2 lats i Hil) as [x Hx].
    destruct (lookup_lt_is_Some_2 buckets bi Hbi) as [b Hb].
    rewrite (at_lookup F64.zero lats (Z.of_nat i) x) by (by rewrite Nat2Z.id).
    rewrite (at_lookup F64.zero buckets (Z.of_nat bi) b) by (by rewrite Nat2Z.id).
    destruct (F64.leb x b) eqn:Hcmp.
    + assert (Hfb : first_bucket buckets x = Some bi).
      { apply first_bucket_Some. split; [by exists b|].
        intros k' b' Hk' Hb'. by apply (Hlow k' i b' x). }
      pose proof (Hpop bi Hbi) as Hc.
      pose proof (bucket_population_bounds buckets (take i lats) bi) as Hbd.
      assert (Hti : len (take i lats) = Z.of_nat i).
      { unfold len. rewrite length_take. lia. }
      rewrite (at_lookup 0 counts (Z.of_nat bi) _) by (rewrite Nat2Z.id; exact Hc).
      rewrite (GoIntFacts.incr_small (bucket_population buckets (take i lats) bi))
        by (unfold len in *; lia).
      rewrite (GoIntFacts.incr_small (Z.of_nat i)) by (unfold len in *; lia).
      rewrite Nat2Z.id.
      replace (Z.of_nat i + 1) with (Z.of_nat (S i)) by lia.
      apply IH; try lia.
      * by rewrite length_insert.
      * intros k Hk. rewrite (take_S_r _ _ _ Hx), bucket_population_snoc.
        destruct (decide (k = bi)) as [->|Hne].
        -- rewrite list_lookup_insert_eq by lia.
           by rewrite bool_decide_eq_true_2.
        -- rewrite list_lookup_insert_ne by done.
           rewrite bool_decide_eq_false_2 by congruence.
           rewrite Z.add_0_r. by apply Hpop.
      * intros k j b' y Hk Hj. apply Hlow; [done|lia].
    + unfold len at 1. destruct (Z.ltb_spec (Z.of_nat bi) (Z.of_nat (length buckets) - 1))
        as [Hb1|Hb1].
      * rewrite GoIntFacts.incr_small by (unfold len in *; lia).
        replace (Z.of_nat bi + 1) with (Z.of_nat (S bi)) by lia.
        apply IH; try lia; try done.
        intros k j b' y Hk Hj Hb' Hy.
        destruct (decide (k = bi)) as [->|Hne]; [|apply (Hlow k j); [lia|done..]].
        assert (b' = b) as -> by congruence.
        destruct (F64.leb y b) eqn:Hyb; [|done].
        rewrite <- Hcmp. symmetry.
        apply (F64Facts.leb_trans x y b); [|done].
        by apply (ascending i j).
      * assert (Hlast : at_ F64.zero buckets (len buckets - 1) = b).
        { apply at_lookup. unfold len. by replace (Z.to_nat _) with bi by lia. }
        rewrite <- Hlast, below_last in Hcmp; [done|].
        by eapply list_elem_of_lookup_2.
  - assert (i = length lats) as -> by (unfold len in Hge; lia).
    exists counts. split; [done|]. split; [done|].
    intros k Hk. rewrite (Hpop k Hk). by rewrite firstn_all.
Qed.

End histogram_population.

Lemma lookup_map {A B : Type} (f : A -> B) (l : list A) (k : nat) :
  map f l !! k = f <$> l !! k.
Proof.
  revert k. induction l as [|a l IH]; intros [|k]; cbn; try done.
Qed.

(** The counts of [printHistogram] on a sorted latency list: the
    populations of the first buckets. *)
Lemma printHistogram_first_buckets (r : Report) (fuel : nat) :
  GoSort.sorted (Lats r) -> Lats r <> [] ->
  F64.is_nan (at_ F64.zero (Lats r) 0) = false ->
  Slowest r = at_ F64.zero (Lats r) (len (Lats r) - 1) ->
  len (Lats r) <= GoInt.max_int ->
  (length (Lats r) + 11 <= fuel)%nat ->
  exists counts,
    printHistogram fuel r =
      Some (set_Histogram
              (Histogram r ++
               map (fun i => Build_Bucket
                               (at_ F64.zero (histogram_buckets r) (Z.of_nat i))
                               (at_ 0 counts (Z.of_nat i)))
                   (seq 0 11)) r) /\
    forall k : nat, (k < 11)%nat ->
      counts !! k = Some (bucket_population (histogram_buckets r) (Lats r) k).
Proof.
  intros Hs Hne Hnan HS Hint Hfuel.
  assert (Hl : length (histogram_buckets r) = 11%nat) by reflexivity.
  destruct (Lats r) as [|x0 l] eqn:El; [done|].
  change (at_ F64.zero (x0 :: l) 0) with x0 in Hnan.
  destruct (histogram_loop_population (x0 :: l) (histogram_buckets r) Hint)
    with (fuel := fuel) (i := 0%nat) (bi := 0%nat) (max := 0)
         (counts := replicate (Z.to_nat (bc + 1)) 0)
    as (counts & Hloop & Hlen & Hpop).
  - vm_compute. discriminate.
  - intros i j x y Hij Hx Hy.
    apply (sorted_lookup_le (x0 :: l) i j); try done.
    apply (sorted_not_nan l x0 Hs Hnan). by eapply list_elem_of_lookup_2.
  - intros x Hx. rewrite histogram_buckets_eq.
    change (at_ F64.zero _ _) with (Slowest r). rewrite HS, at_last.
    destruct (last (x0 :: l)) as [y|] eqn:Ey; [|by apply last_None in Ey].
    cbn [default]. by apply (sorted_le_last l x0 y Hs Hnan Ey).
  - lia.
  - rewrite Hl. lia.
  - reflexivity.
  - intros k Hk. rewrite Hl in Hk. cbn [take].
    change (bucket_population _ [] k) with 0.
    apply lookup_replicate. split; [done|].
    change (Z.to_nat (bc + 1)) with 11%nat. lia.
  - intros k j b y Hk. lia.
  - rewrite Hl. cbn [length] in *. lia.
  - unfold printHistogram. rewrite El.
    change (histogram_loop fuel (x0 :: l) (histogram_buckets r) 0 0 0 _)
      with (histogram_loop fuel (x0 :: l) (histogram_buckets r)
              (Z.of_nat 0) (Z.of_nat 0) 0 (replicate (Z.to_nat (bc + 1)) 0)).
    rewrite Hloop, histogram_emit_eq, Hl.
    exists counts. split; [reflexivity|].
    intros k Hk. apply Hpop. by rewrite Hl.
Qed.

(** X6: what the histogram counts.  For a sorted latency list without a NaN
    whose last entry is [Slowest], entry [k] of the histogram counts the
    latencies that have boundary [k] as the first boundary they are at or
    below: the one pass with a bucket cursor puts every latency where a
    search from the first boundary would put it. *)
Theorem printHistogram_population (r : Report) (fuel : nat) :
  GoSort.sorted (Lats r) -> Lats r <> [] ->
  F64.is_nan (at_ F64.zero (Lats r) 0) = false ->
  Slowest r = at_ F64.zero (Lats r) (len (Lats r) - 1) ->
  len (Lats r) <= GoInt.max_int ->
  (length (Lats r) + 11 <= fuel)%nat ->
  exists h,
    printHistogram fuel r = Some (set_Histogram (Histogram r ++ h) r) /\
    length h = 11%nat /\
    forall k : nat, (k < 11)%nat ->
      Bucket_Count <$> h !! k =
        Some (bucket_population (histogram_buckets r) (Lats r) k).
Proof.
  intros Hs Hne Hnan HS Hint Hfuel.
  destruct (printHistogram_first_buckets r fuel Hs Hne Hnan HS Hint Hfuel)
    as (counts & Hp & Hpop).
  eexists. split; [exact Hp|]. split; [by rewrite length_map, length_seq|].
  intros k Hk. rewrite lookup_map, lookup_seq_lt by done.
  cbn [fmap option_fmap option_map Bucket_Count Nat.add].
  f_equal. apply at_lookup. rewrite Nat2Z.id. by apply Hpop.
Qed.

Lemma printHistogram_population_witness :
  exists h,
    printHistogram 21 (with_latencies [1; 2; 3; 4; 5; 6; 7; 8; 9; 10]) =
      Some (set_Histogram
              (Histogram (with_latencies [1; 2; 3; 4; 5; 6; 7; 8; 9; 10]) ++ h)
              (with_latencies [1; 2; 3; 4; 5; 6; 7; 8; 9; 10])) /\
    length h = 11%nat /\
    forall k : nat, (k < 11)%nat ->
      Bucket_Count <$> h !! k =
        Some (bucket_population
                (histogram_buckets (with_latencies [1; 2; 3; 4; 5; 6; 7; 8; 9; 10]%Z))
                (Lats (with_latencies [1; 2; 3; 4; 5; 6; 7; 8; 9; 10]%Z)) k).
Proof.
  apply printHistogram_population.
  - vm_compute. tauto.
  - discriminate.
  - reflexivity.
  - reflexivity.
  - vm_compute. discriminate.
  - simpl. lia.
Defined.

(** X7: [printHistogram] never returns when a latency is at or below no
    boundary at all, as a NaN is, or a latency above [Slowest] in a report
    whose [Slowest] is not its largest latency: at the last bucket the loop
    goes on without a change. *)
Theorem printHistogram_never_returns (r : Report) (j : nat) (x : F64.t)
    (fuel : nat) :
  Lats r !! j = Some x ->
  (forall b, b ∈ histogram_buckets r -> F64.leb x b = false) ->
  len (Lats r) <= GoInt.max_int ->
  printHistogram fuel r = None.
Proof.
  intros Hx Hall Hint. unfold printHistogram.
  assert (Hloop : forall fuel (i bi : nat) max counts,
            (i <= j)%nat -> (bi < 11)%nat ->
            histogram_loop fuel (Lats r) (histogram_buckets r)
              (Z.of_nat i) (Z.of_nat bi) max counts = None).
  { clear fuel. pose proof (lookup_lt_Some _ _ _ Hx) as Hj.
    induction fuel as [|fuel IH]; intros i bi max counts Hi Hbi; [done|].
    cbn [histogram_loop].
    destruct (Z.ltb_spec (Z.of_nat i) (len (Lats r))) as [_|Hge];
      [|unfold len in Hge; lia].
    assert (Hb : (bi < length (histogram_buckets r))%nat) by exact Hbi.
    destruct (lookup_lt_is_Some_2 _ _ Hb) as [b Hbk].
    rewrite (at_lookup F64.zero (histogram_buckets r) (Z.of_nat bi) b)
      by (by rewrite Nat2Z.id).
    destruct (F64.leb _ b) eqn:Hcmp.
    - assert (i <> j).
      { intros ->. rewrite (at_lookup F64.zero (Lats r) (Z.of_nat j) x) in Hcmp
          by (by rewrite Nat2Z.id).
        rewrite Hall in Hcmp; [done|]. by eapply list_elem_of_lookup_2. }
      rewrite (GoIntFacts.incr_small (Z.of_nat i)) by (unfold len in *; lia).
      replace (Z.of_nat i + 1) with (Z.of_nat (S i)) by lia.
      apply IH; lia.
    - change (len (histogram_buckets r) - 1) with 10.
      destruct (Z.ltb_spec (Z.of_nat bi) 10).
      + rewrite GoIntFacts.incr_small by (unfold GoInt.max_int; lia).
        replace (Z.of_nat bi + 1) with (Z.of_nat (S bi)) by lia.
        apply IH; lia.
      + apply IH; lia. }
  change (histogram_loop fuel (Lats r) (histogram_buckets r) 0 0 0 _)
    with (histogram_loop fuel (Lats r) (histogram_buckets r)
            (Z.of_nat 0) (Z.of_nat 0) 0 (replicate (Z.to_nat (bc + 1)) 0)).
  rewrite Hloop; [done|lia|lia].
Qed.

Lemma printHistogram_never_returns_witness :
  printHistogram 1000
    (set_Slowest (F64.of_int 2) (set_Fastest (F64.of_int 1)
       (set_Lats [F64.of_int 1; F64.of_int 2; F64.of_int 3] (newReport 0 [] "csv" 0))))
  = None.
Proof.
  apply (printHistogram_never_returns _ 2%nat (F64.of_int 3)).
  - reflexivity.
  - intros b Hb. vm_compute in Hb.
    repeat (apply elem_of_cons in Hb as [->|Hb]; [vm_compute; reflexivity|]).
    by apply not_elem_of_nil in Hb.
  - vm_compute. discriminate.
Defined.

(** *** More on the percentiles: how many, in which order *)

Section walk.
Variable N : nat.

Lemma selected_increasing start ps is_ :
  selected N start ps is_ ->
  StronglySorted lt is_ /\ Forall (fun i => (start <= i < N)%nat) is_.
Proof.
  induction 1 as [s|s p ps Hall|s p ps i is_ Hf Hrest [IHs IHb]].
  - split; constructor.
  - split; constructor.
  - destruct Hf as (Hi & _ & _). split.
    + constructor; [done|]. eapply Forall_impl; [exact IHb|]. intros j Hj. simpl in Hj. lia.
    + constructor; [lia|]. eapply Forall_impl; [exact IHb|]. intros j Hj. simpl in Hj. lia.
Qed.

Lemma selected_length_left start ps is_ :
  selected N start ps is_ -> (length is_ <= N - start)%nat.
Proof.
  induction 1 as [s|s p ps Hall|s p ps i is_ Hf Hrest IH]; cbn [length]; [lia|lia|].
  destruct Hf as (Hi & _ & _). lia.
Qed.

(** The rank of the last index is 99 when there are 100 latencies or more. *)
Lemma rank_last : (100 <= N)%nat -> 99 <= rank N (N - 1).
Proof.
  intros HN. unfold rank. apply Z.div_le_lower_bound; lia.
Qed.

Lemma first_from_low start p p' i :
  (100 <= N)%nat -> 0 < p -> p < p' ->
  first_from N p start i ->
  (forall i', (i' < start)%nat -> rank N i' < p) ->
  forall i', (i' < S i)%nat -> rank N i' < p'.
Proof.
  intros HN Hp Hpp (Hi & Hrk & Hmin) Hlow i' Hi'.
  assert (Hbelow : forall i0, (i0 < i)%nat -> rank N i0 < p).
  { intros i0 Hi0. destruct (decide (i0 < start)%nat); [by apply Hlow|].
    apply Hmin. lia. }
  assert (Hri : rank N i <= p).
  { destruct i as [|i].
    - rewrite rank_O. lia.
    - pose proof (rank_step N i HN). pose proof (Hbelow i ltac:(lia)). lia. }
  pose proof (rank_mono N i' i ltac:(lia)). lia.
Qed.

(** With 100 latencies or more, every target up to 99 gets an index. *)
Lemma selected_complete start ps is_ :
  (100 <= N)%nat ->
  selected N start ps is_ ->
  Sorted Z.lt ps -> Forall (fun p => 0 < p <= 99) ps ->
  (forall i' p, (i' < start)%nat -> head ps = Some p -> rank N i' < p) ->
  length is_ = length ps.
Proof.
  intros HN Hsel.
  induction Hsel as [s|s p ps Hall|s p ps i is_ Hf Hrest IH]; intros Hsort Hpos Hlow.
  - done.
  - exfalso. pose proof rank_last HN as Hlast.
    pose proof (Forall_inv Hpos) as Hp. simpl in Hp.
    destruct (decide (s <= N - 1)%nat) as [Hs|Hs].
    + pose proof (Hall (N - 1)%nat ltac:(lia)). lia.
    + pose proof (Hlow (N - 1)%nat p ltac:(lia) eq_refl). lia.
  - cbn [length]. f_equal.
    apply IH; [exact (proj1 (Sorted_inv Hsort)) | exact (Forall_inv_tail Hpos) |].
    intros i' p' Hi' Hhead.
    assert (Hpp : p < p').
    { destruct ps as [|p1 ps]; [done|]. cbn in Hhead. injection Hhead as ->.
      apply Sorted_inv in Hsort as [_ Hhd]. by inversion Hhd. }
    pose proof (Forall_inv Hpos) as Hp. simpl in Hp.
    apply (first_from_low s p p' i); try done; try lia.
    intros i0 Hi0. by apply Hlow.
Qed.

End walk.

Lemma percentile_entries_length lats ps : forall is_,
  (length (percentile_entries lats ps is_) <= length is_)%nat.
Proof.
  induction ps as [|p ps IH]; intros [|i is_]; cbn [percentile_entries length]; try lia.
  specialize (IH is_). destruct (F64.gtb _ _); cbn [length]; lia.
Qed.

(** Every entry holds a target and the latency at the index given to it. *)
Lemma percentile_entries_from lats ps : forall is_ e,
  e ∈ percentile_entries lats ps is_ ->
  exists p (i : nat),
    p ∈ ps /\ i ∈ is_ /\ e = Build_Percential p (at_ F64.zero lats (Z.of_nat i)) /\
    F64.gtb (at_ F64.zero lats (Z.of_nat i)) F64.zero = true.
Proof.
  induction ps as [|p ps IH]; intros [|i is_] e He; cbn [percentile_entries] in He;
    try by apply not_elem_of_nil in He.
  destruct (F64.gtb _ _) eqn:Hgt.
  - apply elem_of_cons in He as [->|He].
    + exists p, i. split_and!; try done; apply elem_of_cons; by left.
    + destruct (IH is_ e He) as (p' & i' & Hp' & Hi' & -> & Hg).
      exists p', i'. split_and!; try done; apply elem_of_cons; by right.
  - destruct (IH is_ e He) as (p' & i' & Hp' & Hi' & -> & Hg).
    exists p', i'. split_and!; try done; apply elem_of_cons; by right.
Qed.

Lemma gtb_not_nan x y : F64.gtb x y = true -> F64.is_nan x = false.
Proof. unfold F64.gtb. by destruct x, y. Qed.

Lemma pctls_strongly_sorted : StronglySorted Z.lt pctls.
Proof. repeat constructor. Qed.

Lemma pctls_in_range : Forall (fun p => 0 < p <= 99) pctls.
Proof. repeat constructor; lia. Qed.


Lemma percentile_entries_sorted lats ps : forall is_,
  GoSort.sorted lats ->
  StronglySorted Z.lt ps -> StronglySorted lt is_ ->
  Forall (fun i => (i < length lats)%nat) is_ ->
  StronglySorted percentile_before (percentile_entries lats ps is_).
Proof.
  induction ps as [|p ps IH]; intros [|i is_] Hs Hps His Hb;
    cbn [percentile_entries]; try constructor.
  apply StronglySorted_inv in Hps as [Hps Hp].
  apply StronglySorted_inv in His as [His Hi].
  apply Forall_cons in Hb as [Hib Hb].
  specialize (IH is_ Hs Hps His Hb).
  destruct (F64.gtb _ _) eqn:Hgt; [|exact IH].
  constructor; [exact IH|]. apply Forall_forall. intros e He.
  destruct (percentile_entries_from lats ps is_ e He) as (p' & i' & Hp' & Hi' & -> & _).
  split; cbn [Percential_Percent Percential_Count].
  - rewrite Forall_forall in Hp. by apply Hp.
  - rewrite Forall_forall in Hi, Hb. specialize (Hi i' Hi'). specialize (Hb i' Hi').
    apply (sorted_lookup_le lats i i'); [done|lia| | |by eapply gtb_not_nan].
    + rewrite <- (Nat2Z.id i) at 1. apply at_in_range. unfold len. lia.
    + rewrite <- (Nat2Z.id i') at 1. apply at_in_range. unfold len. lia.
Qed.

(** X8: for a sorted latency list, the percentile entries that
    [printLatencies] appends come in the order of their targets, with
    latencies that never decrease from an entry to a later one; every entry
    holds one of the seven targets and a latency of the list. *)
Theorem printLatencies_ascending (r : Report) :
  GoSort.sorted (Lats r) ->
  len (Lats r) * 100 <= GoInt.max_int ->
  exists es,
    Percentiales (printLatencies r) = Percentiales r ++ es /\
    StronglySorted percentile_before es /\
    Forall (fun e => Percential_Percent e ∈ pctls /\ Percential_Count e ∈ Lats r) es.
Proof.
  intros Hs Hint.
  destruct (printLatencies_selected r Hint) as (is_ & Hsel & Hout).
  destruct (selected_increasing _ _ _ _ Hsel) as [Hinc Hb].
  assert (Hb' : Forall (fun i => (i < length (Lats r))%nat) is_).
  { eapply Forall_impl; [exact Hb|]. intros i Hi. simpl in Hi. lia. }
  eexists. split; [exact Hout|]. split.
  - by apply percentile_entries_sorted; [|apply pctls_strongly_sorted|..].
  - apply Forall_forall. intros e He.
    destruct (percentile_entries_from _ _ _ _ He) as (p & i & Hp & Hi & -> & _).
    split; [done|]. cbn [Percential_Count].
    rewrite Forall_forall in Hb'. specialize (Hb' i Hi).
    apply at_elem_of. unfold len. lia.
Qed.

Lemma printLatencies_ascending_witness :
  exists es,
    Percentiales (printLatencies (with_latencies [0; 0; 0; 1; 2; 3; 4; 5; 6; 7])) =
      Percentiales (with_latencies [0; 0; 0; 1; 2; 3; 4; 5; 6; 7]) ++ es /\
    StronglySorted percentile_before es /\
    Forall (fun e => Percential_Percent e ∈ pctls /\
                     Percential_Count e ∈ Lats (with_latencies [0; 0; 0; 1; 2; 3; 4; 5; 6; 7]))
           es.
Proof.
  apply printLatencies_ascending.
  - vm_compute. tauto.
  - vm_compute. discriminate.
Defined.

(** X9: [printLatencies] appends at most seven entries and, as index 0 has
    rank 0 and an index serves one target only, at most one fewer than there
    are latencies: none for a single latency. *)
Theorem printLatencies_at_most (r : Report) :
  len (Lats r) * 100 <= GoInt.max_int ->
  exists es,
    Percentiales (printLatencies r) = Percentiales r ++ es /\
    (length es <= 7)%nat /\ (length es <= length (Lats r) - 1)%nat.
Proof.
  intros Hint.
  destruct (printLatencies_selected r Hint) as (is_ & Hsel & Hout).
  eexists. split; [exact Hout|].
  pose proof (percentile_entries_length (Lats r) pctls is_) as Hle.
  split.
  - pose proof (selected_length _ _ _ _ Hsel) as Hl. cbn [pctls length] in Hl. lia.
  - assert (length is_ <= length (Lats r) - 1)%nat; [|lia].
    unfold pctls in Hsel.
    inversion Hsel as [|s p ps Hall|s p ps i is' Hf Hrest]; subst; cbn [length]; [lia|].
    destruct Hf as (Hi & Hrk & _).
    assert (i <> 0%nat) by (intros ->; rewrite rank_O in Hrk; lia).
    pose proof (selected_length_left _ _ _ _ Hrest). lia.
Qed.

Lemma printLatencies_at_most_witness :
  exists es,
    Percentiales (printLatencies (with_latencies [42])) =
      Percentiales (with_latencies [42]) ++ es /\
    (length es <= 7)%nat /\ (length es <= length (Lats (with_latencies [42]%Z)) - 1)%nat.
Proof.
  apply printLatencies_at_most. vm_compute. discriminate.
Defined.

Lemma percentile_entries_all lats ps : forall is_,
  length is_ = length ps ->
  Forall (fun i => F64.gtb (at_ F64.zero lats (Z.of_nat i)) F64.zero = true) is_ ->
  map Percential_Percent (percentile_entries lats ps is_) = ps.
Proof.
  induction ps as [|p ps IH]; intros [|i is_] Hlen Hall; cbn [percentile_entries];
    try done.
  apply Forall_cons in Hall as [Hi Hall]. rewrite Hi. cbn [map Percential_Percent].
  f_equal. apply IH; [|done]. cbn [length] in Hlen. lia.
Qed.

(** X10: with 100 latencies or more, all greater than 0, [printLatencies]
    appends an entry for each of the seven targets, in order. *)
Theorem printLatencies_all_seven (r : Report) :
  (100 <= length (Lats r))%nat ->
  Forall (fun x => F64.gtb x F64.zero = true) (Lats r) ->
  len (Lats r) * 100 <= GoInt.max_int ->
  exists es,
    Percentiales (printLatencies r) = Percentiales r ++ es /\
    map Percential_Percent es = [10; 25; 50; 75; 90; 95; 99].
Proof.
  intros HN Hpos Hint.
  destruct (printLatencies_selected r Hint) as (is_ & Hsel & Hout).
  eexists. split; [exact Hout|].
  apply (percentile_entries_all (Lats r) pctls is_).
  - apply (selected_complete _ 0 pctls is_ HN Hsel pctls_sorted pctls_in_range).
    intros i' p Hi'. lia.
  - destruct (selected_increasing _ _ _ _ Hsel) as [_ Hb].
    eapply Forall_impl; [exact Hb|]. intros i Hi. simpl in Hi.
    rewrite Forall_forall in Hpos. apply Hpos, at_elem_of. unfold len. lia.
Qed.

Lemma printLatencies_all_seven_witness :
  exists es,
    Percentiales (printLatencies (with_latencies (map Z.of_nat (seq 1 100)))) =
      Percentiales (with_latencies (map Z.of_nat (seq 1 100))) ++ es /\
    map Percential_Percent es = [10; 25; 50; 75; 90; 95; 99].
Proof.
  apply printLatencies_all_seven.
  - vm_compute. lia.
  - apply Forall_forall. intros x Hx.
    apply list_elem_of_In in Hx. vm_compute in Hx.
    repeat (destruct Hx as [<-|Hx]; [vm_compute; reflexivity|]). done.
  - vm_compute. discriminate.
Defined.

(** A hundred latencies 1, 2, ..., 100 ms: the percentiles are the latencies
    at the indexes 10, 25, 50, 75, 90, 95 and 99. *)
Example printLatencies_hundred :
  Percentiales (printLatencies (with_latencies (map Z.of_nat (seq 1 100)))) =
    map (fun p => Build_Percential p (F64.of_int (p + 1))) [10; 25; 50; 75; 90; 95; 99].
Proof. vm_compute. reflexivity. Qed.

(** *** The sign of a latency; one run of a [range] loop *)

Lemma Seconds_signed d : signed (d <? 0) (GoTime.Seconds d).
Proof.
  unfold GoTime.Seconds. apply F64Round.add_signed.
  - apply F64Round.of_int_signed. unfold GoTime.Second.
    destruct (Z.ltb_spec d 0).
    + apply Z.quot_le_upper_bound; lia.
    + apply Z.quot_pos; lia.
  - change (F64.of_int 1000000000) with (S754_finite false 8388608000000000 (-23)).
    apply F64Round.div_signed, F64Round.of_int_signed. unfold GoTime.Second.
    destruct (Z.ltb_spec d 0).
    + apply Z.rem_nonpos; lia.
    + apply Z.rem_nonneg; lia.
Qed.

Lemma mul_signed s x my ey :
  signed s x -> signed s (F64.mul x (S754_finite false my ey)).
Proof.
  unfold F64.mul. destruct x as [sx|sx| |sx mx ex]; simpl; try done.
  - intros ->. by destruct s.
  - intros ->. replace (xorb s false) with s by (by destruct s).
    apply F64Round.binary_round_aux_signed. lia.
Qed.

Lemma latency_ms_signed res : signed (duration res <? 0) (latency_ms res).
Proof.
  unfold latency_ms.
  change (F64.of_int 1000) with (S754_finite false 8796093022208000 (-43)).
  apply mul_signed, Seconds_signed.
Qed.

Lemma signed_nonneg x : signed false x -> F64.leb F64.zero x = true.
Proof. destruct x as [sx|sx| |sx mx ex]; simpl; try done; by intros ->. Qed.

(** X11: when no successful record has a negative duration, no latency of
    the report is negative, nor is the fastest or the slowest one. *)
Theorem finalize_latencies_nonneg (size : Z) (q : list result) (out : string)
    (total_ : Z) (o1 o2 : range_order Z Z) (fuel : nat) :
  (forall res, res ∈ q -> err res = None -> 0 <= duration res) ->
  len q <= GoInt.max_int -> (length q + 11 <= fuel)%nat ->
  exists r',
    finalize fuel o1 o2 (newReport size q out total_) = Some r' /\
    Forall (fun x => F64.leb F64.zero x = true) (Lats r') /\
    F64.leb F64.zero (Fastest r') = true /\
    F64.leb F64.zero (Slowest r') = true.
Proof.
  intros Hq Hint Hfuel.
  destruct (finalize_result size q out total_ o1 o2 fuel Hint Hfuel)
    as (r' & Hfin & _ & _ & _ & HL & _ & _ & _ & Hnil & Hcons).
  exists r'. split; [exact Hfin|].
  assert (Hall : forall x, x ∈ sorted_latencies q -> F64.leb F64.zero x = true).
  { intros x. unfold sorted_latencies. rewrite GoSortFacts.Float64s_perm.
    intros (res & -> & Hres)%list_elem_of_fmap.
    apply list_elem_of_In, filter_In in Hres as [Hres Hok].
    apply signed_nonneg.
    replace false with (duration res <? 0); [apply latency_ms_signed|].
    apply Z.ltb_ge, Hq; [by apply list_elem_of_In|].
    unfold succeeded in Hok. by destruct (err res). }
  split; [rewrite HL; by apply Forall_forall|].
  destruct (successes q) as [|res l] eqn:Hs.
  - by destruct (Hnil eq_refl) as (-> & -> & _).
  - destruct Hcons as (-> & -> & _); [done|].
    assert (Hlen : (0 < length (sorted_latencies q))%nat).
    { unfold sorted_latencies. rewrite GoSortFacts.Float64s_length, length_map, Hs.
      simpl. lia. }
    split; apply Hall, at_elem_of; unfold len; lia.
Qed.

Lemma finalize_latencies_nonneg_witness :
  exists r',
    finalize 13 in_map_order in_map_order
      (newReport 2 [ok 200 0; ok 200 1500000] "csv" 1000000000) = Some r' /\
    Forall (fun x => F64.leb F64.zero x = true) (Lats r') /\
    F64.leb F64.zero (Fastest r') = true /\
    F64.leb F64.zero (Slowest r') = true.
Proof.
  apply finalize_latencies_nonneg.
  - intros res Hres _.
    repeat (apply elem_of_cons in Hres as [->|Hres]; [vm_compute; discriminate|]).
    by apply not_elem_of_nil in Hres.
  - vm_compute. discriminate.
  - simpl. lia.
Defined.

(** X12: one run of [printStatusCodes], or of [printErrors], appends exactly
    one entry for every key of its map, with the count that the map holds
    for the key, and nothing else, in whatever order the [range] loop visits
    the map. *)
Theorem print_counters_once (r : Report) (o : range_order Z Z)
    (o' : range_order string Z) :
  visits_each_once o -> visits_each_once o' ->
  (forall c,
     filter (fun sc => StatusCode_Code sc = c) (StatusCodes (printStatusCodes o r)) =
       filter (fun sc => StatusCode_Code sc = c) (StatusCodes r) ++
       match statusCodeDist r !! c with
       | Some n => [Build_StatusCode c n]
       | None => []
       end) /\
  length (StatusCodes (printStatusCodes o r)) =
    (length (StatusCodes r) + size (statusCodeDist r))%nat /\
  (forall e,
     filter (fun x => Error_Error x = e) (Errors (printErrors o' r)) =
       filter (fun x => Error_Error x = e) (Errors r) ++
       match errorDist r !! e with
       | Some n => [Build_Error e n]
       | None => []
       end) /\
  length (Errors (printErrors o' r)) =
    (length (Errors r) + size (errorDist r))%nat.
Proof.
  intros Ho Ho'. rewrite printStatusCodes_eq, printErrors_eq. fields. split_and!.
  - intros c. rewrite filter_app, filter_to_StatusCode, (range_filter_key o) by done.
    by destruct (statusCodeDist r !! c).
  - rewrite length_app, length_map, (Ho (map_to_list _)), length_map_to_list. done.
  - intros e. rewrite filter_app, filter_to_Error, (range_filter_key o') by done.
    by destruct (errorDist r !! e).
  - rewrite length_app, length_map, (Ho' (map_to_list _)), length_map_to_list. done.
Qed.

Lemma print_counters_once_witness :
  (forall c,
     filter (fun sc => StatusCode_Code sc = c)
       (StatusCodes (printStatusCodes in_reverse_order
          (drain [ok 200 1; ko "timeout"; ok 404 1; ok 200 1] (newReport 0 [] "csv" 0)))) =
       filter (fun sc => StatusCode_Code sc = c)
         (StatusCodes (drain [ok 200 1; ko "timeout"; ok 404 1; ok 200 1] (newReport 0 [] "csv" 0))) ++
       match statusCodeDist (drain [ok 200 1; ko "timeout"; ok 404 1; ok 200 1] (newReport 0 [] "csv" 0)) !! c with
       | Some n => [Build_StatusCode c n]
       | None => []
       end) /\
  length (StatusCodes (printStatusCodes in_reverse_order
            (drain [ok 200 1; ko "timeout"; ok 404 1; ok 200 1] (newReport 0 [] "csv" 0)))) =
    (length (StatusCodes (drain [ok 200 1; ko "timeout"; ok 404 1; ok 200 1] (newReport 0 [] "csv" 0))) +
     size (statusCodeDist (drain [ok 200 1; ko "timeout"; ok 404 1; ok 200 1] (newReport 0 [] "csv" 0))))%nat /\
  (forall e,
     filter (fun x => Error_Error x = e)
       (Errors (printErrors in_map_order
          (drain [ok 200 1; ko "timeout"; ok 404 1; ok 200 1] (newReport 0 [] "csv" 0)))) =
       filter (fun x => Error_Error x = e)
         (Errors (drain [ok 200 1; ko "timeout"; ok 404 1; ok 200 1] (newReport 0 [] "csv" 0))) ++
       match errorDist (drain [ok 200 1; ko "timeout"; ok 404 1; ok 200 1] (newReport 0 [] "csv" 0)) !! e with
       | Some n => [Build_Error e n]
       | None => []
       end) /\
  length (Errors (printErrors in_map_order
            (drain [ok 200 1; ko "timeout"; ok 404 1; ok 200 1] (newReport 0 [] "csv" 0)))) =
    (length (Errors (drain [ok 200 1; ko "timeout"; ok 404 1; ok 200 1] (newReport 0 [] "csv" 0))) +
     size (errorDist (drain [ok 200 1; ko "timeout"; ok 404 1; ok 200 1] (newReport 0 [] "csv" 0))))%nat.
Proof.
  apply print_counters_once.
  - apply in_reverse_order_visits.
  - apply in_map_order_visits.
Defined.

(** *** [finalize] from end to end: the histogram, the fuel *)

(** With a successful record in the queue, [finalize] ends in
    [printHistogram], run on a report that holds the sorted latencies and
    their extremes and no histogram yet. *)
Lemma finalize_ends_in_printHistogram (size : Z) (q : list result) (out : string)
    (total_ : Z) (o1 o2 : range_order Z Z) (fuel : nat) :
  successes q <> [] ->
  exists r5,
    finalize fuel o1 o2 (newReport size q out total_) = printHistogram fuel r5 /\
    Lats r5 = sorted_latencies q /\
    Fastest r5 = at_ F64.zero (sorted_latencies q) 0 /\
    Slowest r5 = at_ F64.zero (sorted_latencies q) (len (sorted_latencies q) - 1) /\
    Histogram r5 = [].
Proof.
  intros Hne. unfold finalize. cbn [results newReport]. rewrite finalize_loop_drain.
  set (r0 := newReport size q out total_).
  pose proof (drain_Lats q r0) as HL. cbn [Lats r0 newReport app] in HL.
  destruct (drain_untouched q r0) as (_ & _ & _ & HHi & _).
  cbn [Histogram r0 newReport] in HHi.
  unfold finish. fields. rewrite HL. fold (sorted_latencies q).
  assert (Hlen : len (sorted_latencies q) <> 0).
  { unfold sorted_latencies, len.
    rewrite GoSortFacts.Float64s_length, length_map.
    destruct (successes q); [done|]. cbn [length]. lia. }
  destruct (Z.eqb_spec (len (sorted_latencies q)) 0) as [|_]; [done|].
  eexists. split; [reflexivity|].
  unfold printLatencies. rewrite !printStatusCodes_eq. fields. by rewrite HHi.
Qed.

Lemma List_filter_perm {A : Type} (f : A -> bool) (l1 l2 : list A) :
  l1 ≡ₚ l2 -> List.filter f l1 ≡ₚ List.filter f l2.
Proof.
  induction 1 as [|x l1 l2 H IH|x y l|l1 l2 l3 H1 IH1 H2 IH2]; cbn [List.filter].
  - done.
  - destruct (f x); by rewrite IH.
  - destruct (f x), (f y); try done. apply Permutation_swap.
  - by rewrite IH1.
Qed.

(** X13: the histogram that [finalize] reports, for every queue with a
    successful record, whatever the spread of the latencies: 11 entries, the
    last boundary being the slowest latency; entry [k] counts the successful
    records whose latency has boundary [k] as the first boundary it is at or
    below; the counts add up to the number of successful records. *)
Theorem finalize_histogram (size : Z) (q : list result) (out : string)
    (total_ : Z) (o1 o2 : range_order Z Z) (fuel : nat) :
  successes q <> [] ->
  len q <= GoInt.max_int -> (length q + 11 <= fuel)%nat ->
  exists r',
    finalize fuel o1 o2 (newReport size q out total_) = Some r' /\
    length (Histogram r') = 11%nat /\
    Bucket_Bucket <$> Histogram r' !! 10%nat = Some (Slowest r') /\
    (forall k : nat, (k < 11)%nat ->
       Bucket_Count <$> Histogram r' !! k =
         Some (bucket_population (map Bucket_Bucket (Histogram r'))
                                 (map latency_ms (successes q)) k)) /\
    histogram_total (Histogram r') = len (successes q).
Proof.
  intros Hne Hint Hfuel.
  destruct (finalize_ends_in_printHistogram size q out total_ o1 o2 fuel Hne)
    as (r5 & Hfin & HL & HF & HS & HH).
  pose proof (successes_length q) as Hsl.
  assert (Hlen : length (sorted_latencies q) = length (successes q)).
  { unfold sorted_latencies. by rewrite GoSortFacts.Float64s_length, length_map. }
  assert (Hne5 : sorted_latencies q <> []).
  { intros E. rewrite E in Hlen. destruct (successes q); done. }
  assert (Hs : GoSort.sorted (Lats r5))
    by (rewrite HL; apply GoSortFacts.Float64s_sorted).
  assert (Hn : F64.is_nan (at_ F64.zero (Lats r5) 0) = false).
  { rewrite HL. apply (sorted_latencies_not_nan q), at_elem_of.
    unfold len. destruct (sorted_latencies q); [done|]. cbn [length]. lia. }
  assert (Hne' : Lats r5 <> []) by (by rewrite HL).
  assert (HS' : Slowest r5 = at_ F64.zero (Lats r5) (len (Lats r5) - 1))
    by (by rewrite HL).
  assert (Hint' : len (Lats r5) <= GoInt.max_int)
    by (rewrite HL; unfold len in *; lia).
  assert (Hfuel' : (length (Lats r5) + 11 <= fuel)%nat) by (rewrite HL; lia).
  destruct (printHistogram_first_buckets r5 fuel Hs Hne' Hn HS' Hint' Hfuel')
    as (counts1 & Hp & Hpop1).
  set (h := map (fun i => Build_Bucket
                            (at_ F64.zero (histogram_buckets r5) (Z.of_nat i))
                            (at_ 0 counts1 (Z.of_nat i))) (seq 0 11)) in Hp.
  assert (Hh : length h = 11%nat) by (unfold h; by rewrite length_map, length_seq).
  assert (Hpop : forall k : nat, (k < 11)%nat ->
            Bucket_Count <$> h !! k =
              Some (bucket_population (histogram_buckets r5) (Lats r5) k)).
  { intros k Hk. unfold h. rewrite lookup_map, lookup_seq_lt by done.
    cbn [fmap option_fmap option_map Bucket_Count Nat.add].
    f_equal. apply at_lookup. rewrite Nat2Z.id. by apply Hpop1. }
  destruct (printHistogram_total fuel r5 Hs Hne' Hn HS' Hint' Hfuel')
    as (counts & Hp' & Hc1 & _ & Hc3).
  assert (Hh' : h = map (fun i => Build_Bucket
                             (at_ F64.zero (histogram_buckets r5) (Z.of_nat i))
                             (at_ 0 counts (Z.of_nat i))) (seq 0 11)).
  { rewrite Hp in Hp'. injection Hp' as E. apply app_inv_head in E. exact E. }
  rewrite Hfin, Hp, HH. cbn [app]. eexists. split; [reflexivity|]. fields.
  assert (Hb : map Bucket_Bucket h = histogram_buckets r5).
  { rewrite Hh', map_Bucket_Bucket. by apply at_seq_all. }
  split_and!.
  - exact Hh.
  - rewrite <- lookup_map, Hb, histogram_buckets_eq. reflexivity.
  - intros k Hk. rewrite (Hpop k Hk), Hb, HL. f_equal.
    unfold bucket_population, len. f_equal.
    apply Permutation_length, List_filter_perm, GoSortFacts.Float64s_perm.
  - unfold histogram_total. rewrite Hh', map_Bucket_Count, at_seq_all.
    + rewrite Hc3, HL. unfold len. by rewrite Hlen.
    + unfold len in Hc1. lia.
Qed.

Lemma finalize_histogram_witness :
  exists r',
    finalize 15 in_map_order in_map_order
      (newReport 4 [ok 200 3000000; ko "timeout"; ok 200 1000000; ok 200 1000000]
                 "csv" 1000000000) = Some r' /\
    length (Histogram r') = 11%nat /\
    Bucket_Bucket <$> Histogram r' !! 10%nat = Some (Slowest r') /\
    (forall k : nat, (k < 11)%nat ->
       Bucket_Count <$> Histogram r' !! k =
         Some (bucket_population (map Bucket_Bucket (Histogram r'))
                 (map latency_ms
                    (successes [ok 200 3000000; ko "timeout"; ok 200 1000000; ok 200 1000000]))
                 k)) /\
    histogram_total (Histogram r') =
      len (successes [ok 200 3000000; ko "timeout"; ok 200 1000000; ok 200 1000000]).
Proof.
  apply finalize_histogram.
  - discriminate.
  - vm_compute. discriminate.
  - simpl. lia.
Defined.

(** Latencies of 1, 1 and 3 ms: two at the first boundary, one at the
    last. *)
Example finalize_histogram_example :
  option_map (fun r => map Bucket_Count (Histogram r))
    (finalize 15 in_map_order in_map_order
       (newReport 4 [ok 200 3000000; ko "timeout"; ok 200 1000000; ok 200 1000000]
                  "csv" 1000000000)) =
  Some [2; 0; 0; 0; 0; 0; 0; 0; 0; 0; 1].
Proof. vm_compute. reflexivity. Qed.

Lemma histogram_loop_more_fuel lats buckets fuel : forall i bi max counts counts',
  histogram_loop fuel lats buckets i bi max counts = Some counts' ->
  forall fuel', (fuel <= fuel')%nat ->
    histogram_loop fuel' lats buckets i bi max counts = Some counts'.
Proof.
  induction fuel as [|fuel IH]; intros i bi max counts counts' H fuel' Hle; [done|].
  destruct fuel' as [|fuel']; [lia|]. cbn [histogram_loop] in H |- *.
  destruct (i <? len lats); [|done].
  destruct (F64.leb _ _); [apply (IH _ _ _ _ _ H); lia|].
  destruct (bi <? len buckets - 1); apply (IH _ _ _ _ _ H); lia.
Qed.

(** X14: [finalize] returns a report for every queue: one iteration of the
    counting loop per successful record and per bucket is all it takes, and
    the report is the same however many more iterations are allowed. *)
Theorem finalize_returns (size : Z) (q : list result) (out : string)
    (total_ : Z) (o1 o2 : range_order Z Z) (fuel : nat) :
  len q <= GoInt.max_int -> (length q + 11 <= fuel)%nat ->
  exists r',
    finalize (length q + 11) o1 o2 (newReport size q out total_) = Some r' /\
    finalize fuel o1 o2 (newReport size q out total_) = Some r'.
Proof.
  intros Hint Hfuel.
  destruct (finalize_result size q out total_ o1 o2 (length q + 11) Hint (le_n _))
    as (r' & Hfin & _).
  exists r'. split; [exact Hfin|].
  revert Hfin. unfold finalize. cbn [results newReport].
  rewrite !finalize_loop_drain. unfold finish. fields.
  destruct (len (GoSort.Float64s _) =? 0); [done|].
  unfold printHistogram.
  destruct (histogram_loop (length q + 11) _ _ _ _ _ _) as [counts|] eqn:E; [|done].
  by rewrite (histogram_loop_more_fuel _ _ _ _ _ _ _ _ E fuel Hfuel).
Qed.

Lemma finalize_returns_witness :
  exists r',
    finalize (length [ok 200 3000000; ko "timeout"; ok 200 1000000] + 11)
      in_map_order in_map_order
      (newReport 3 [ok 200 3000000; ko "timeout"; ok 200 1000000] "csv" 1000000000)
      = Some r' /\
    finalize 1000 in_map_order in_map_order
      (newReport 3 [ok 200 3000000; ko "timeout"; ok 200 1000000] "csv" 1000000000)
      = Some r'.
Proof.
  apply finalize_returns.
  - vm_compute. discriminate.
  - simpl. lia.
Defined.

Lemma drain_keeps q : forall r,
  TotalDuration (drain q r) = TotalDuration r /\ total (drain q r) = total r /\
  output (drain q r) = output r.
Proof.
  induction q as [|res q IH]; intros r; cbn [drain]; [done|].
  destruct (IH (receive res (set_results q r))) as (-> & -> & ->).
  unfold receive. destruct (err res); [done|].
  by destruct (contentLength res >? 0).
Qed.

(** X15: [finalize] never assigns [TotalDuration]: whatever the total
    duration handed to [newReport], the field is still 0 in the report, while
    the duration itself and the output format are kept as given. *)
Theorem finalize_total_duration_unset (size : Z) (q : list result) (out : string)
    (total_ : Z) (o1 o2 : range_order Z Z) (fuel : nat) :
  len q <= GoInt.max_int -> (length q + 11 <= fuel)%nat ->
  exists r',
    finalize fuel o1 o2 (newReport size q out total_) = Some r' /\
    TotalDuration r' = 0 /\ total r' = total_ /\ output r' = out.
Proof.
  intros Hint Hfuel.
  destruct (finalize_result size q out total_ o1 o2 fuel Hint Hfuel)
    as (r' & Hfin & _).
  exists r'. split; [exact Hfin|].
  unfold finalize in Hfin. cbn [results newReport] in Hfin.
  rewrite finalize_loop_drain in Hfin.
  destruct (finish_keeps _ _ _ _ _ Hfin) as (_ & _ & _ & _ & _ & _ & -> & -> & ->).
  by destruct (drain_keeps q (newReport size q out total_)) as (-> & -> & ->).
Qed.

Lemma finalize_total_duration_unset_witness :
  exists r',
    finalize 13 in_map_order in_map_order
      (newReport 2 [ok 200 1000000; ok 200 2000000] "csv" 5000000000) = Some r' /\
    TotalDuration r' = 0 /\ total r' = 5000000000 /\ output r' = "csv".
Proof.
  apply finalize_total_duration_unset.
  - vm_compute. discriminate.
  - simpl. lia.
Defined.
